(** * Export-job subsystem of the eDiscovery FastAPI service

    A shallow embedding of [backend/fastapi/routers/export.py]: the in-memory
    job table [export_jobs], the submission handler [export_documents], the
    background task [process_export] and the download handler
    [download_export], followed by the properties of the export
    specification that concern them. *)

From stdpp Require Import gmap strings list sorting.
From Stdlib Require Import ZArith Lia.

Open Scope Z_scope.

(** ** Python values *)

(** [datetime.datetime]: the seven fields of a naive timestamp. *)
Record datetime := mk_datetime {
  year : Z; month : Z; day : Z;
  hour : Z; minute : Z; second : Z; microsecond : Z
}.

#[global] Instance datetime_eq_dec : EqDecision datetime.
Proof. solve_decision. Defined.

(** Chronological rank of a timestamp: the lexicographic order on the seven
    fields, which is how both Python and the database compare timestamps. *)
Definition dt_key (d : datetime) : Z :=
  (((((year d * 13 + month d) * 32 + day d) * 24 + hour d) * 60
     + minute d) * 60 + second d) * 1000000 + microsecond d.

(** [w] decimal digits of [n], zero padded (the [%Y], [%m], [%f] ...
    directives of strftime; [%Y] as it prints the years from 1000 on). *)
Fixpoint digits (w : nat) (n : Z) : string :=
  match w with
  | O => ""
  | S w' =>
      digits w' (n / 10)
        +:+ String (Ascii.ascii_of_nat (48 + Z.to_nat (n mod 10))) ""
  end.

(** [d.strftime('%Y%m%d_%H%M%S_%f')] *)
Definition strftime_job (d : datetime) : string :=
  digits 4 (year d) +:+ digits 2 (month d) +:+ digits 2 (day d) +:+ "_"
    +:+ digits 2 (hour d) +:+ digits 2 (minute d) +:+ digits 2 (second d) +:+ "_"
    +:+ digits 6 (microsecond d).

(** [d.strftime('%Y%m%d')] *)
Definition strftime_day (d : datetime) : string :=
  digits 4 (year d) +:+ digits 2 (month d) +:+ digits 2 (day d).

(** [d.isoformat()]: the fraction is printed only when it is not zero. *)
Definition isoformat (d : datetime) : string :=
  digits 4 (year d) +:+ "-" +:+ digits 2 (month d) +:+ "-" +:+ digits 2 (day d)
    +:+ "T" +:+ digits 2 (hour d) +:+ ":" +:+ digits 2 (minute d) +:+ ":"
    +:+ digits 2 (second d)
    +:+ (if decide (microsecond d = 0) then ""
        else "." +:+ digits 6 (microsecond d)).

(** JSON-like values: what the [metadata] and [tags] columns hold, and what
    [json.dump] is given. *)
#[warnings="-register-all"]
Inductive pyval :=
  | PNone
  | PBool (b : bool)
  | PInt (z : Z)
  | PStr (s : string)
  | PList (l : list pyval)
  | PDict (d : list (string * pyval)).

(** Python truthiness, as used by [if x:] and [x or y]. *)
Class Truthy (A : Type) := truthy : A → bool.

#[global] Instance pyval_truthy : Truthy pyval := λ v,
  match v with
  | PNone => false
  | PBool b => b
  | PInt z => negb (Z.eqb z 0)
  | PStr s => negb (String.eqb s "")
  | PList l => match l with [] => false | _ => true end
  | PDict d => match d with [] => false | _ => true end
  end.

(** An [Optional[int]]: [None] and [0] are falsy. *)
#[global] Instance opt_int_truthy : Truthy (option Z) := λ o,
  match o with Some z => negb (Z.eqb z 0) | None => false end.

(** An [Optional[List[int]]]: [None] and [[]] are falsy. *)
#[global] Instance opt_list_truthy : Truthy (option (list Z)) := λ o,
  match o with Some (_ :: _) => true | _ => false end.

(** An [Optional[datetime]]: every datetime object is truthy. *)
#[global] Instance opt_datetime_truthy : Truthy (option datetime) := λ o,
  match o with Some _ => true | None => false end.

(** An [Optional[str]]: [None] and the empty string are falsy. *)
#[global] Instance opt_str_truthy : Truthy (option string) := λ o,
  match o with Some s => negb (String.eqb s "") | None => false end.

Definition of_opt_int (o : option Z) : pyval :=
  match o with Some z => PInt z | None => PNone end.

Definition of_opt_str (o : option string) : pyval :=
  match o with Some s => PStr s | None => PNone end.

(** ** Data model *)

(** [class ExportRequest(BaseModel)] *)
Record ExportRequest := mk_request {
  req_case_id : option Z;
  req_document_ids : option (list Z);
  req_format : string;
  req_include_metadata : bool;
  req_date_from : option datetime;
  req_date_to : option datetime
}.

(** [class ExportJob(BaseModel)] *)
Record ExportJob := mk_job {
  job_id : string;
  status : string;
  format : string;
  created_at : datetime;
  completed_at : option datetime;
  download_url : option string;
  total_records : Z;
  error_message : option string
}.

(** One row of the SELECT of [process_export], columns 0 to 11:
    [documents d LEFT JOIN cases c].  The columns of [c] are NULL when the
    document has no case. *)
Record Row := mk_row {
  d_id : Z;
  d_filename : string;
  d_case_id : option Z;
  c_name : option string;
  c_number : option string;
  d_file_type : option string;
  d_file_size : option Z;
  d_upload_date : option datetime;
  d_uploaded_by : option string;
  d_metadata : pyval;
  d_tags : pyval;
  d_hash : option string
}.

(** ** The query of [process_export] *)

Module Sql.

(** The fragments appended to [sql_parts], with their bound parameters. *)
Inductive part :=
  | SelectDocuments                      (* SELECT ... WHERE 1=1 *)
  | AndCaseId (case_id : Z)              (* AND d.case_id = :case_id *)
  | AndIdIn (ids : list Z)               (* AND d.id IN (:id_0, ...) *)
  | AndUploadGe (date_from : datetime)   (* AND d.upload_date >= :date_from *)
  | AndUploadLe (date_to : datetime)     (* AND d.upload_date <= :date_to *)
  | OrderByUploadDesc.                   (* ORDER BY d.upload_date DESC *)

#[global] Instance part_eq_dec : EqDecision part.
Proof. solve_decision. Defined.

(** Truth of one condition on one row.  A comparison with NULL is not
    true, so the row is dropped. *)
Definition holds (p : part) (r : Row) : bool :=
  match p with
  | SelectDocuments => true
  | AndCaseId c =>
      match d_case_id r with Some c' => c' =? c | None => false end
  | AndIdIn ids => bool_decide (d_id r ∈ ids)
  | AndUploadGe t =>
      match d_upload_date r with
      | Some u => dt_key t <=? dt_key u
      | None => false
      end
  | AndUploadLe t =>
      match d_upload_date r with
      | Some u => dt_key u <=? dt_key t
      | None => false
      end
  | OrderByUploadDesc => true
  end.

(** [r1] may precede [r2] under ORDER BY upload_date DESC; NULL counts as
    the largest value, so it comes first in descending order. *)
Definition upload_desc (r1 r2 : Row) : Prop :=
  match d_upload_date r1, d_upload_date r2 with
  | None, _ => True
  | Some _, None => False
  | Some a, Some b => dt_key b ≤ dt_key a
  end.

#[global] Instance upload_desc_dec : RelDecision upload_desc.
Proof.
  intros r1 r2. unfold upload_desc.
  destruct (d_upload_date r1), (d_upload_date r2); apply _.
Defined.

(** The rows the database answers with: the rows of the table that satisfy
    every condition, sorted as the ORDER BY clause asks when there is
    one.  The order among rows of equal upload date is left open by SQL;
    the sort used here fixes one. *)
Definition execute (table : list Row) (parts : list part) : list Row :=
  let selected := filter (λ r, forallb (λ p, holds p r) parts = true) table in
  if bool_decide (OrderByUploadDesc ∈ parts)
  then merge_sort upload_desc selected
  else selected.

End Sql.

(** ** Exceptions, the environment and the state of the process *)

Inductive exn_class :=
  KeyError | OSError | DatabaseError | ImportError | ValidationError
  | PlainException.

#[global] Instance exn_class_eq_dec : EqDecision exn_class.
Proof. solve_decision. Defined.

(** A raised Python exception; [exn_msg] is what [str(e)] gives. *)
Record exn := mk_exn { exn_cls : exn_class; exn_msg : string }.

Definition str_exn (e : exn) : string := exn_msg e.

(** [KeyError(k)] prints as the repr of the key. *)
Definition key_error (k : string) : exn := mk_exn KeyError ("'" +:+ k +:+ "'").

(** [fastapi.HTTPException] *)
Record HTTPException := mk_http { status_code : Z; detail : string }.

(** A cell handed to [csv.writer] or put in a spreadsheet record: a plain
    value, a timestamp, or the text [json.dumps(v)]. *)
Inductive cell :=
  | Cell (v : pyval)
  | CellDate (d : datetime)
  | CellDumps (v : pyval).

(** What a file of the export directory holds. *)
Inductive file_content :=
  | EmptyFile                                         (* just opened with 'w' *)
  | CsvFile (lines : list (list cell))                (* rows written so far *)
  | JsonFile (doc : pyval)                            (* a finished json.dump *)
  | XlsxFile (sheet : list (list (string * cell)))    (* a finished to_excel *)
  | Truncated (intended : file_content).    (* cut short: some beginning of
                                               the text of [intended] *)

(** [config.Settings]: the one field the export router reads. *)
Record Settings := mk_settings { export_dir : string }.

(** The defaults of [config.py]. *)
Definition default_settings : Settings := {| export_dir := "./exports" |}.

(** The environment of the process: configuration, the database, the clock,
    and which input/output operations fail. *)
Record World := mk_world {
  settings : Settings;
  table : list Row;                 (* documents LEFT JOIN cases *)
  db_fault : option exn;            (* raised by db.execute *)
  mkdir_fault : option exn;         (* raised by export_dir.mkdir *)
  open_fault : option exn;          (* raised by open(filepath, 'w') *)
  write_fault : nat → option exn;   (* raised by the n-th write to a file *)
  spreadsheet_libs : bool;          (* pandas and openpyxl can be imported *)
  utcnow : nat → datetime           (* the n-th reading of the clock *)
}.

(** The mutable state: the module-level dict [export_jobs], the file system
    under the export directory, the queue of [BackgroundTasks], and counters
    for the clock and for file writes.  [status_log] is a ghost history: every
    value stored in a job's [status], in order; no code reads it. *)
Record State := mk_state {
  export_jobs : gmap string ExportJob;
  files : gmap string file_content;
  dirs : gset string;
  background_tasks : list (string * ExportRequest);
  ticks : nat;
  writes : nat;
  status_log : list (string * string)
}.

Definition set_export_jobs (f : gmap string ExportJob → gmap string ExportJob)
    (s : State) : State :=
  mk_state (f (export_jobs s)) (files s) (dirs s) (background_tasks s)
    (ticks s) (writes s) (status_log s).

Definition set_files (f : gmap string file_content → gmap string file_content)
    (s : State) : State :=
  mk_state (export_jobs s) (f (files s)) (dirs s) (background_tasks s)
    (ticks s) (writes s) (status_log s).

Definition set_dirs (f : gset string → gset string) (s : State) : State :=
  mk_state (export_jobs s) (files s) (f (dirs s)) (background_tasks s)
    (ticks s) (writes s) (status_log s).

Definition set_background_tasks
    (f : list (string * ExportRequest) → list (string * ExportRequest))
    (s : State) : State :=
  mk_state (export_jobs s) (files s) (dirs s) (f (background_tasks s))
    (ticks s) (writes s) (status_log s).

Definition set_ticks (f : nat → nat) (s : State) : State :=
  mk_state (export_jobs s) (files s) (dirs s) (background_tasks s)
    (f (ticks s)) (writes s) (status_log s).

Definition set_writes (f : nat → nat) (s : State) : State :=
  mk_state (export_jobs s) (files s) (dirs s) (background_tasks s)
    (ticks s) (f (writes s)) (status_log s).

Definition set_status_log (f : list (string * string) → list (string * string))
    (s : State) : State :=
  mk_state (export_jobs s) (files s) (dirs s) (background_tasks s)
    (ticks s) (writes s) (f (status_log s)).

(** ** A state and exception monad *)

Definition M (E A : Type) : Type := State → (E + A) * State.

Definition ret {E A} (a : A) : M E A := λ s, (inr a, s).

Definition raise {E A} (e : E) : M E A := λ s, (inl e, s).

Definition bind {E A B} (m : M E A) (k : A → M E B) : M E B :=
  λ s, match m s with
       | (inl e, s') => (inl e, s')
       | (inr a, s') => k a s'
       end.

(** [try: body except Exception as e: handler e] *)
Definition try_except {E E' A} (body : M E A) (handler : E → M E' A) : M E' A :=
  λ s, match body s with
       | (inl e, s') => handler e s'
       | (inr a, s') => (inr a, s')
       end.

(** [try: body except ImportError: handler]: other exceptions pass. *)
Definition try_except_import {A} (body : M exn A) (handler : M exn A) : M exn A :=
  λ s, match body s with
       | (inl e, s') =>
           if decide (exn_cls e = ImportError) then handler s' else (inl e, s')
       | (inr a, s') => (inr a, s')
       end.

#[global] Instance M_ret {E} : MRet (M E) := λ A, ret.
#[global] Instance M_bind {E} : MBind (M E) := λ A B k m, bind m k.

(** [for x in xs: body x] *)
Fixpoint for_each {E A} (xs : list A) (body : A → M E unit) : M E unit :=
  match xs with
  | [] => ret tt
  | x :: xs' => body x;; for_each xs' body
  end.

(** A step that only changes the state. *)
Definition modify {E} (f : State → State) : M E unit := λ s, (inr tt, f s).

(** [datetime.utcnow()] *)
Definition now {E} (w : World) : M E datetime :=
  λ s, (inr (utcnow w (ticks s)), set_ticks S s).

(** ** Operations on the job table *)

Definition with_status (v : string) (j : ExportJob) : ExportJob :=
  mk_job (job_id j) v (format j) (created_at j) (completed_at j)
    (download_url j) (total_records j) (error_message j).

Definition with_completed_at (v : option datetime) (j : ExportJob) : ExportJob :=
  mk_job (job_id j) (status j) (format j) (created_at j) v
    (download_url j) (total_records j) (error_message j).

Definition with_download_url (v : option string) (j : ExportJob) : ExportJob :=
  mk_job (job_id j) (status j) (format j) (created_at j) (completed_at j)
    v (total_records j) (error_message j).

Definition with_total_records (v : Z) (j : ExportJob) : ExportJob :=
  mk_job (job_id j) (status j) (format j) (created_at j) (completed_at j)
    (download_url j) v (error_message j).

Definition with_error_message (v : option string) (j : ExportJob) : ExportJob :=
  mk_job (job_id j) (status j) (format j) (created_at j) (completed_at j)
    (download_url j) (total_records j) v.

(** [export_jobs[jid].field = v]: a KeyError when the id is not in the
    dict, an update in place of the stored record otherwise. *)
Definition setattr (jid : string) (f : ExportJob → ExportJob) : M exn unit :=
  λ s, match export_jobs s !! jid with
       | None => (inl (key_error jid), s)
       | Some j => (inr tt, set_export_jobs (insert jid (f j)) s)
       end.

(** [export_jobs[jid].status = v], with the ghost history extended. *)
Definition set_status (jid v : string) : M exn unit :=
  setattr jid (with_status v);;
  modify (set_status_log (λ l, l ++ [(jid, v)])).

(** [export_jobs[jid] = job] *)
Definition store_job {E} (jid : string) (job : ExportJob) : M E unit :=
  modify (set_export_jobs (insert jid job));;
  modify (set_status_log (λ l, l ++ [(jid, status job)])).

(** [background_tasks.add_task(process_export, jid, req, db)] *)
Definition add_task {E} (jid : string) (req : ExportRequest) : M E unit :=
  modify (set_background_tasks (λ q, q ++ [(jid, req)])).

(** ** Operations on the file system *)

(** [Path(d) / name], as the text [d/name]: a path is kept the way it is
    written, not in the normal form pathlib prints (without a leading
    [./]); both name the same file. *)
Definition path_join (d name : string) : string := d +:+ "/" +:+ name.

(** [Path(d).mkdir(exist_ok=True)] *)
Definition mkdir (w : World) (d : string) : M exn unit :=
  λ s, match mkdir_fault w with
       | Some e => (inl e, s)
       | None => (inr tt, set_dirs (λ ds, {[d]} ∪ ds) s)
       end.

(** [open(path, 'w')]: creates the file, or empties it. *)
Definition open_w (w : World) (path : string) : M exn unit :=
  λ s, match open_fault w with
       | Some e => (inl e, s)
       | None => (inr tt, set_files (insert path EmptyFile) s)
       end.

(** One write to an open file: [f] is applied to its content, unless the
    environment makes this write fail, in which case [g] is (what a write
    cut short leaves behind).  The file object buffers: a failure of the
    disk comes up at this write, at a later one or when the file is closed,
    always inside the [with] block; the write it is counted at is the one
    that raises. *)
Definition write (w : World) (path : string)
    (f g : file_content → file_content) : M exn unit :=
  λ s, match write_fault w (writes s) with
       | Some e => (inl e, set_writes S (set_files (alter g path) s))
       | None => (inr tt, set_writes S (set_files (alter f path) s))
       end.

(** [writer.writerow(data)]: the row is appended; when the write fails, the
    file is cut short somewhere in the lines written so far, this one
    included, possibly in the middle of a line. *)
Definition writerow (w : World) (path : string) (data : list cell) : M exn unit :=
  write w path
    (λ c, match c with
          | CsvFile ls => CsvFile (ls ++ [data])
          | _ => CsvFile [data]
          end)
    (λ c, Truncated match c with
                    | CsvFile ls => CsvFile (ls ++ [data])
                    | _ => CsvFile [data]
                    end).

(** [json.dump(doc, f, indent=2)] *)
Definition json_dump (w : World) (path : string) (doc : pyval) : M exn unit :=
  write w path (λ _, JsonFile doc) (λ _, Truncated (JsonFile doc)).

(** [df.to_excel(path, index=False, engine='openpyxl')] *)
Definition to_excel (w : World) (path : string)
    (sheet : list (list (string * cell))) : M exn unit :=
  open_w w path;;
  write w path (λ _, XlsxFile sheet) (λ _, Truncated (XlsxFile sheet)).

(** [Path(p).exists()] *)
Definition path_exists (s : State) (p : string) : bool :=
  bool_decide (is_Some (files s !! p)) || bool_decide (p ∈ dirs s).

(** [import pandas as pd] *)
Definition import_pandas (w : World) : M exn unit :=
  if spreadsheet_libs w then ret tt
  else raise (mk_exn ImportError "No module named 'pandas'").

(** ** The database *)

(** [db.execute(text(" ".join(sql_parts)), params).fetchall()] *)
Definition db_execute (w : World) (sql_parts : list Sql.part) : M exn (list Row) :=
  match db_fault w with
  | Some e => raise e
  | None => ret (Sql.execute (table w) sql_parts)
  end.

(** [if x: sql_parts.append(clause); params[...] = x] *)
Definition sql_if {A} `{Truthy (option A)} (x : option A) (clause : A → Sql.part)
    : list Sql.part :=
  if truthy x then match x with Some a => [clause a] | None => [] end else [].

(** The [sql_parts] and [params] that [process_export] builds. *)
Definition build_query (req : ExportRequest) : list Sql.part :=
  [Sql.SelectDocuments]
    ++ sql_if (req_case_id req) Sql.AndCaseId
    ++ sql_if (req_document_ids req) Sql.AndIdIn
    ++ sql_if (req_date_from req) Sql.AndUploadGe
    ++ sql_if (req_date_to req) Sql.AndUploadLe
    ++ [Sql.OrderByUploadDesc].

(** ** Serialization *)

Definition of_opt_date (o : option datetime) : cell :=
  match o with Some d => CellDate d | None => Cell PNone end.

(** [list(row[:9])] *)
Definition row_core (r : Row) : list cell :=
  [ Cell (PInt (d_id r)); Cell (PStr (d_filename r));
    Cell (of_opt_int (d_case_id r)); Cell (of_opt_str (c_name r));
    Cell (of_opt_str (c_number r)); Cell (of_opt_str (d_file_type r));
    Cell (of_opt_int (d_file_size r)); of_opt_date (d_upload_date r);
    Cell (of_opt_str (d_uploaded_by r)) ].

(** [json.dumps(v) if v else ""] *)
Definition dumps_or_empty (v : pyval) : cell :=
  if truthy v then CellDumps v else Cell (PStr "").

(** [h or ""] *)
Definition str_or_empty (h : option string) : cell :=
  if truthy h then Cell (of_opt_str h) else Cell (PStr "").

(** The three extra cells written when [include_metadata] is set. *)
Definition row_extra (r : Row) : list cell :=
  [ dumps_or_empty (d_metadata r); dumps_or_empty (d_tags r);
    str_or_empty (d_hash r) ].

Definition core_headers : list string :=
  [ "ID"; "Filename"; "Case ID"; "Case Name"; "Case Number";
    "File Type"; "File Size (bytes)"; "Upload Date"; "Uploaded By" ].

Definition extra_headers : list string := [ "Metadata"; "Tags"; "Hash" ].

Definition csv_headers (req : ExportRequest) : list cell :=
  (λ h, Cell (PStr h)) <$>
    (core_headers ++ if req_include_metadata req then extra_headers else []).

Definition csv_data (req : ExportRequest) (r : Row) : list cell :=
  row_core r ++ if req_include_metadata req then row_extra r else [].

(** The [csv] branch: the header row, then one row per document. *)
Definition write_csv (w : World) (filepath : string) (req : ExportRequest)
    (rows : list Row) : M exn unit :=
  open_w w filepath;;
  writerow w filepath (csv_headers req);;
  for_each rows (λ row, writerow w filepath (csv_data req row)).

(** The [doc] dict of the [json] branch. *)
Definition json_doc (req : ExportRequest) (r : Row) : pyval :=
  PDict
    ([ ("id", PInt (d_id r)); ("filename", PStr (d_filename r));
       ("case_id", of_opt_int (d_case_id r));
       ("case_name", of_opt_str (c_name r));
       ("case_number", of_opt_str (c_number r));
       ("file_type", of_opt_str (d_file_type r));
       ("file_size", of_opt_int (d_file_size r));
       ("upload_date",
        match d_upload_date r with
        | Some d => PStr (isoformat d)
        | None => PNone
        end);
       ("uploaded_by", of_opt_str (d_uploaded_by r)) ]
     ++ if req_include_metadata req
        then [ ("metadata", d_metadata r); ("tags", d_tags r);
               ("hash", of_opt_str (d_hash r)) ]
        else []).

(** The [json] branch. *)
Definition write_json (w : World) (filepath : string) (req : ExportRequest)
    (rows : list Row) : M exn unit :=
  let documents := json_doc req <$> rows in
  open_w w filepath;;
  export_date ← now w;
  json_dump w filepath
    (PDict [ ("export_date", PStr (isoformat export_date));
             ("total_records", PInt (Z.of_nat (length documents)));
             ("documents", PList documents) ]).

(** The [record] dict of the [xlsx] branch. *)
Definition xlsx_record (req : ExportRequest) (r : Row) : list (string * cell) :=
  zip core_headers (row_core r)
    ++ if req_include_metadata req then zip extra_headers (row_extra r) else [].

(** The [xlsx] branch: an ImportError anywhere inside is replaced by a
    plain exception with a fixed message. *)
Definition write_xlsx (w : World) (filepath : string) (req : ExportRequest)
    (rows : list Row) : M exn unit :=
  try_except_import
    (import_pandas w;;
     to_excel w filepath (xlsx_record req <$> rows))
    (raise (mk_exn PlainException
              "pandas and openpyxl required for XLSX export")).

(** ** The background task *)

(** The first statement of [process_export]. *)
Definition mark_processing (jid : string) : M exn unit :=
  set_status jid "processing".

(** The output path of a job: [export_dir / f"{job_id}.{format}"]. *)
Definition export_path (w : World) (jid fmt : string) : string :=
  path_join (export_dir (settings w)) (jid +:+ "." +:+ fmt).

(** The [if]/[elif] chain on the format.  A format that is none of the
    three matches no branch, and nothing is written. *)
Definition write_by_format (w : World) (filepath : string) (req : ExportRequest)
    (rows : list Row) : M exn unit :=
  if decide (req_format req = "csv") then write_csv w filepath req rows
  else if decide (req_format req = "json") then write_json w filepath req rows
  else if decide (req_format req = "xlsx") then write_xlsx w filepath req rows
  else mret tt.

(** Directory and file: [mkdir], then the branch of the requested format. *)
Definition write_export_file (w : World) (jid : string) (req : ExportRequest)
    (rows : list Row) : M exn unit :=
  mkdir w (export_dir (settings w));;
  write_by_format w (export_path w jid (req_format req)) req rows.

(** Query, then directory and file; the rows fetched are the result. *)
Definition produce_file (w : World) (jid : string) (req : ExportRequest)
    : M exn (list Row) :=
  rows ← db_execute w (build_query req);
  write_export_file w jid req rows;;
  mret rows.

(** The last four statements of the [try] block. *)
Definition mark_completed (w : World) (jid : string) (rows : list Row)
    : M exn unit :=
  set_status jid "completed";;
  t ← now w;
  setattr jid (with_completed_at (Some t));;
  setattr jid (with_download_url (Some ("/api/export/download/" +:+ jid)));;
  setattr jid (with_total_records (Z.of_nat (length rows))).

(** The [try] block after its first statement. *)
Definition run_export (w : World) (jid : string) (req : ExportRequest)
    : M exn unit :=
  rows ← produce_file w jid req;
  mark_completed w jid rows.

(** The [except Exception as e] block. *)
Definition on_failure (jid : string) (e : exn) : M exn unit :=
  set_status jid "failed";;
  setattr jid (with_error_message (Some (str_exn e))).

(** [async def process_export(job_id, export_request, db)].  The body
    awaits nothing: once the task has started, it runs to its end before
    any other handler of the process reads the job table. *)
Definition process_export (w : World) (jid : string) (req : ExportRequest)
    : M exn unit :=
  try_except (mark_processing jid;; run_export w jid req) (on_failure jid).

(** ** The request handlers *)

(** [POST /documents] *)
Definition export_documents (w : World) (req : ExportRequest)
    : M HTTPException ExportJob :=
  try_except
    (t ← now w;
     let jid := "export_" +:+ strftime_job t in
     created ← now w;
     let job := mk_job jid "pending" (req_format req) created None None 0 None in
     store_job jid job;;
     add_task jid req;;
     mret job)
    (λ e : exn, raise (mk_http 500 ("Export failed: " +:+ str_exn e))).

(** [GET /job/{job_id}] *)
Definition get_export_job (jid : string) : M HTTPException ExportJob :=
  λ s, match export_jobs s !! jid with
       | None => (inl (mk_http 404 "Export job not found"), s)
       | Some job => (inr job, s)
       end.

(** [fastapi.responses.FileResponse] *)
Record FileResponse := mk_response {
  resp_path : string;
  media_type : string;
  resp_filename : string
}.

Definition media_types : gmap string string :=
  list_to_map
    [ ("csv", "text/csv"); ("json", "application/json");
      ("xlsx", "application/vnd.openxmlformats-officedocument.spreadsheetml.sheet") ].

(** [GET /download/{job_id}] *)
Definition download_export (w : World) (jid : string)
    : M HTTPException FileResponse :=
  λ s, match export_jobs s !! jid with
       | None => (inl (mk_http 404 "Export job not found"), s)
       | Some job =>
           if decide (status job ≠ "completed")
           then (inl (mk_http 400 ("Export not ready. Status: " +:+ status job)), s)
           else
             let filepath := export_path w jid (format job) in
             if negb (path_exists s filepath)
             then (inl (mk_http 404 "Export file not found"), s)
             else
               (t ← now w;
                mret (mk_response filepath
                        (default "application/octet-stream"
                           (media_types !! format job))
                        ("ediscovery_export_" +:+ strftime_day t +:+ "."
                           +:+ format job))) s
       end.

(** ** Predicates used to state the properties *)

(** The filters a request puts on a row, read off [build_query]: a filter
    applies when its criterion is truthy. *)
Definition selects (req : ExportRequest) (r : Row) : Prop :=
  (∀ c, req_case_id req = Some c → c ≠ 0 → d_case_id r = Some c)
  ∧ (∀ ids, req_document_ids req = Some ids → ids ≠ [] → d_id r ∈ ids)
  ∧ (∀ t, req_date_from req = Some t →
       ∃ u, d_upload_date r = Some u ∧ dt_key t ≤ dt_key u)
  ∧ (∀ t, req_date_to req = Some t →
       ∃ u, d_upload_date r = Some u ∧ dt_key u ≤ dt_key t).

(** A job record as [export_documents] creates it. *)
Definition as_submitted (j : ExportJob) : Prop :=
  status j = "pending" ∧ completed_at j = None ∧ download_url j = None
  ∧ total_records j = 0 ∧ error_message j = None.

(** The relation between the fields of a job record and its status. *)
Definition job_invariant (j : ExportJob) : Prop :=
  (is_Some (download_url j) ↔ status j = "completed")
  ∧ (is_Some (error_message j) ↔ status j = "failed")
  ∧ (status j ≠ "completed" → total_records j = 0).

(** The values stored in the [status] of job [jid], oldest first. *)
Definition status_history (jid : string) (s : State) : list string :=
  snd <$> filter (λ e, e.1 = jid) (status_log s).

(** What [process_export] turns the record [j] stored under [jid] into:
    when it completes at [t] with [n] rows, and when it fails with [e]. *)
Definition completed_job (jid : string) (j : ExportJob) (t : datetime) (n : nat)
    : ExportJob :=
  mk_job (job_id j) "completed" (format j) (created_at j) (Some t)
    (Some ("/api/export/download/" +:+ jid)) (Z.of_nat n) (error_message j).

Definition failed_job (j : ExportJob) (e : exn) : ExportJob :=
  mk_job (job_id j) "failed" (format j) (created_at j) (completed_at j)
    (download_url j) (total_records j) (Some (str_exn e)).

(** The state [process_export] ends in, from the state [s] it started in
    with [j] stored under [jid] and the result [r] and end state [s2] of
    [produce_file]. *)
Definition outcome_state (w : World) (jid : string) (j : ExportJob) (s : State)
    (r : exn + list Row) (s2 : State) : State :=
  match r with
  | inr rows =>
      mk_state
        (<[jid := completed_job jid j (utcnow w (ticks s2)) (length rows)]>
           (export_jobs s))
        (files s2) (dirs s2) (background_tasks s) (S (ticks s2)) (writes s2)
        (status_log s ++ [(jid, "processing"); (jid, "completed")])
  | inl e =>
      mk_state (<[jid := failed_job j e]> (export_jobs s))
        (files s2) (dirs s2) (background_tasks s) (ticks s2) (writes s2)
        (status_log s ++ [(jid, "processing"); (jid, "failed")])
  end.

(** The state after the first statement of [process_export]. *)
Definition processing_state (jid : string) (j : ExportJob) (s : State) : State :=
  set_status_log (λ l, l ++ [(jid, "processing")])
    (set_export_jobs (insert jid (with_status "processing" j)) s).

(** The job table, the status history and the task queue. *)
Definition job_side (s : State)
    : gmap string ExportJob * list (string * string)
      * list (string * ExportRequest) :=
  (export_jobs s, status_log s, background_tasks s).

(** The files other than [p]. *)
Definition off_path (p : string) (s : State) : gmap string file_content :=
  delete p (files s).

(** Reading an export back: the integer in a cell, a key of a dict. *)
Definition cell_int (c : cell) : option Z :=
  match c with Cell (PInt z) => Some z | _ => None end.

Fixpoint assoc (k : string) (d : list (string * pyval)) : option pyval :=
  match d with
  | [] => None
  | (k', v) :: d' => if decide (k' = k) then Some v else assoc k d'
  end.

Definition dict_get (k : string) (v : pyval) : option pyval :=
  match v with PDict d => assoc k d | _ => None end.

Definition pyval_int (v : pyval) : option Z :=
  match v with PInt z => Some z | _ => None end.

(** The document ids in a CSV export: the first cell of every line after
    the header. *)
Definition csv_document_ids (c : file_content) : option (list Z) :=
  match c with
  | CsvFile (_ :: data) => mapM (λ line, head line ≫= cell_int) data
  | _ => None
  end.

(** The document ids in a JSON export: the [id] of every entry of
    [documents]. *)
Definition json_document_ids (c : file_content) : option (list Z) :=
  match c with
  | JsonFile doc =>
      match dict_get "documents" doc with
      | Some (PList docs) => mapM (λ d, dict_get "id" d ≫= pyval_int) docs
      | _ => None
      end
  | _ => None
  end.

(** The [total_records] written in a JSON export. *)
Definition json_total_records (c : file_content) : option Z :=
  match c with
  | JsonFile doc => dict_get "total_records" doc ≫= pyval_int
  | _ => None
  end.

(** A file that was written to the end. *)
Definition finished (c : file_content) : Prop :=
  match c with
  | CsvFile _ | JsonFile _ | XlsxFile _ => True
  | EmptyFile | Truncated _ => False
  end.

(** The document of the [json] branch for [rows], dated [t]. *)
Definition json_export (req : ExportRequest) (rows : list Row) (t : datetime)
    : pyval :=
  PDict [ ("export_date", PStr (isoformat t));
          ("total_records", PInt (Z.of_nat (length (json_doc req <$> rows))));
          ("documents", PList (json_doc req <$> rows)) ].

(** ** The process as a sequence of handler runs *)

(** The handlers are coroutines on one event loop and none of them awaits:
    the process moves by whole runs of a handler or of a background task.
    Each run has its own environment. *)
Inductive event :=
  | Submit (w : World) (req : ExportRequest)   (* POST /documents *)
  | RunTask (w : World) (n : nat)              (* the n-th queued task runs *)
  | GetJob (jid : string)                      (* GET /job/{job_id} *)
  | Download (w : World) (jid : string).       (* GET /download/{job_id} *)

(** The id [export_documents] is about to generate. *)
Definition next_job_id (w : World) (s : State) : string :=
  "export_" +:+ strftime_job (utcnow w (ticks s)).

(** One run.  A submission always goes through, whatever id the clock
    gives it; a task runs only if it is queued, and leaves the queue. *)
Definition step (ev : event) (s : State) : option State :=
  match ev with
  | Submit w req => Some (export_documents w req s).2
  | RunTask w n =>
      match background_tasks s !! n with
      | Some (jid, req) =>
          Some (process_export w jid req
                  (set_background_tasks (delete n) s)).2
      | None => None
      end
  | GetJob jid => Some (get_export_job jid s).2
  | Download w jid => Some (download_export w jid s).2
  end.

Fixpoint run (evs : list event) (s : State) : option State :=
  match evs with
  | [] => Some s
  | ev :: evs' => step ev s ≫= run evs'
  end.

(** The run [ev] is a submission, and [jid] is the id it generates. *)
Definition submits (jid : string) (ev : event) (s : State) : bool :=
  match ev with
  | Submit w _ => bool_decide (next_job_id w s = jid)
  | _ => false
  end.

(** How many of the runs [evs] from [s] are submissions that generate the
    id [jid]: more than one when two submissions read the same microsecond
    off the clock. *)
Fixpoint times_submitted (jid : string) (evs : list event) (s : State) : nat :=
  match evs with
  | [] => 0
  | ev :: evs' =>
      (if submits jid ev s then 1 else 0)
      + match step ev s with
        | Some s' => times_submitted jid evs' s'
        | None => 0
        end
  end.

(** The ids of the jobs whose task is queued. *)
Definition queued (s : State) : list string := (background_tasks s).*1.

(** The number of queued tasks for [jid]. *)
Definition tasks_of (jid : string) (s : State) : nat :=
  length (filter (λ t, t.1 = jid) (background_tasks s)).

(** What holds between runs of an id that [k] submissions have generated:
    before the first, nothing is stored or queued for it; after one, the
    job is as submitted while its task is queued, and completed or failed
    once the task has run, and its status history says so.  Nothing is
    said of an id generated more than once. *)
Definition job_inv (jid : string) (k : nat) (s : State) : Prop :=
  match k with
  | 0%nat =>
      export_jobs s !! jid = None ∧ status_history jid s = []
      ∧ tasks_of jid s = 0%nat
  | 1%nat =>
      ∃ j, export_jobs s !! jid = Some j
           ∧ ((as_submitted j ∧ status_history jid s = ["pending"]
               ∧ tasks_of jid s = 1%nat)
              ∨ (tasks_of jid s = 0%nat
                 ∧ (status j = "completed" ∨ status j = "failed")
                 ∧ status_history jid s = ["pending"; "processing"; status j]
                 ∧ job_invariant j))
  | _ => True
  end.

(** ** An environment and a state to run examples in *)

(** A clock that advances by one microsecond per reading. *)
Definition example_clock (n : nat) : datetime :=
  mk_datetime 2024 3 1 9 30 0 (Z.of_nat n).

(** No operation fails, the spreadsheet libraries are installed. *)
Definition quiet_world (t : list Row) : World :=
  mk_world default_settings t None None None (λ _, None) true example_clock.

(** The second write to a file fails: the disk is full. *)
Definition disk_full_world (t : list Row) : World :=
  mk_world default_settings t None None None
    (λ n, if decide (n = 1%nat)
          then Some (mk_exn OSError "No space left on device") else None)
    true example_clock.

(** The database is unreachable. *)
Definition db_down_world : World :=
  mk_world default_settings [] (Some (mk_exn DatabaseError "connection refused"))
    None None (λ _, None) true example_clock.

(** The spreadsheet libraries are not installed. *)
Definition no_pandas_world (t : list Row) : World :=
  mk_world default_settings t None None None (λ _, None) false example_clock.

(** The process before any request. *)
Definition initial_state : State := mk_state ∅ ∅ ∅ [] 0 0 [].

Definition example_doc (id : Z) (case : Z) (day_ : Z) : Row :=
  mk_row id "memo.txt" (Some case) (Some "Acme v. Doe") (Some "2024-001")
    (Some "txt") (Some 120) (Some (mk_datetime 2024 1 day_ 0 0 0 0))
    (Some "alice") PNone (PList [PStr "privileged"]) (Some "ab12").

(** [m] relates the state it starts in to the state it ends in by [R],
    whatever it returns or raises. *)
Definition preserves {E A} (R : relation State) (m : M E A) : Prop :=
  ∀ s r s', m s = (r, s') → R s s'.

(** The part [proj] of the state is the same before and after. *)
Definition unchanged {X} (proj : State → X) : relation State :=
  λ s s', proj s' = proj s.

#[local] Instance unchanged_preorder {X} (proj : State → X) :
  PreOrder (unchanged proj).
Proof.
  split; [by intros s | intros s1 s2 s3; unfold unchanged; congruence].
Qed.

(** The frame of one primitive step, by running it. *)
Ltac step_frame :=
  intros s r s';
  unfold mkdir, open_w, write, now, db_execute, import_pandas, raise, ret,
    mret, M_ret, ret;
  repeat case_match; intros [= <- <-] || intros [= _ <-];
  unfold unchanged, job_side, off_path; simpl; try done.

(** * Further definitions *)

(** ** The export files *)

(** The lines of the finished CSV export of [rows]. *)
Definition csv_lines (req : ExportRequest) (rows : list Row) : list (list cell) :=
  csv_headers req :: (csv_data req <$> rows).

(** The column names of an export. *)
Definition column_names (req : ExportRequest) : list string :=
  core_headers ++ if req_include_metadata req then extra_headers else [].

(** The keys of a document of the JSON export. *)
Definition json_keys (req : ExportRequest) : list string :=
  [ "id"; "filename"; "case_id"; "case_name"; "case_number"; "file_type";
    "file_size"; "upload_date"; "uploaded_by" ]
    ++ if req_include_metadata req then ["metadata"; "tags"; "hash"] else [].

(** A row without what the three extra columns hold. *)
Definition strip_extra (r : Row) : Row :=
  mk_row (d_id r) (d_filename r) (d_case_id r) (c_name r) (c_number r)
    (d_file_type r) (d_file_size r) (d_upload_date r) (d_uploaded_by r)
    PNone PNone None.

(** The same environment over another table. *)
Definition with_table (w : World) (t : list Row) : World :=
  mk_world (settings w) t (db_fault w) (mkdir_fault w) (open_fault w)
    (write_fault w) (spreadsheet_libs w) (utcnow w).

(** ** Job ids, formats and routes *)

(** The ranges of the fields of a [datetime.datetime]. *)
Definition valid_datetime (d : datetime) : Prop :=
  1 ≤ year d ≤ 9999 ∧ 1 ≤ month d ≤ 12 ∧ 1 ≤ day d ≤ 31
  ∧ 0 ≤ hour d ≤ 23 ∧ 0 ≤ minute d ≤ 59 ∧ 0 ≤ second d ≤ 59
  ∧ 0 ≤ microsecond d ≤ 999999.

(** One entry of the answer of [GET /formats]. *)
Record FormatInfo := mk_format {
  fmt_id : string;
  fmt_name : string;
  fmt_extension : string;
  fmt_description : string
}.

(** [GET /formats]: the list under the key [formats]. *)
Definition get_export_formats : list FormatInfo :=
  [ mk_format "csv" "CSV (Comma-Separated Values)" ".csv"
      "Universal format, compatible with Excel and other tools";
    mk_format "json" "JSON" ".json"
      "Structured data format, ideal for API integration";
    mk_format "xlsx" "Excel Spreadsheet" ".xlsx"
      "Microsoft Excel format with formatting support" ].

(** [main.py]: the prefix under which the export router is mounted. *)
Definition export_router_prefix : string := "/api/export".

(** [export.py]: the path of the download route for a job id. *)
Definition download_route (jid : string) : string := "/download/" +:+ jid.

(** A stored record carries the id it is stored under, and the
    [download_url] of a completed job is the download route for that id. *)
Definition record_matches_key (jid : string) (j : ExportJob) : Prop :=
  job_id j = jid
  ∧ (status j = "completed" →
     download_url j = Some (export_router_prefix +:+ download_route jid)).

(** The clock stands still. *)
Definition frozen_clock_world : World :=
  mk_world default_settings [] None None None (λ _, None) true
    (λ _, mk_datetime 2024 3 1 9 30 0 0).

(** The directory cannot be created. *)
Definition no_directory_world : World :=
  mk_world default_settings [] None
    (Some (mk_exn OSError "Permission denied")) None (λ _, None) true
    example_clock.

(** The job a first submission at [initial_state] stores, by format. *)
Definition first_job (fmt : string) : ExportJob :=
  mk_job "export_20240301_093000_000000" "pending" fmt (example_clock 1)
    None None 0 None.

(** ** The audit log endpoint, [routers/audit.py] *)

(** [s.replace(old, new)] for a non-empty [old]: occurrences are replaced
    from the left, without overlap. *)
Fixpoint replace_from (old new : string) (skip : nat) (s : string) : string :=
  match s with
  | EmptyString => EmptyString
  | String c s' =>
      match skip with
      | S k => replace_from old new k s'
      | O =>
          if String.prefix old s
          then new +:+ replace_from old new (String.length old - 1) s'
          else String c (replace_from old new 0 s')
      end
  end.

Definition str_replace (old new s : string) : string :=
  replace_from old new 0 s.

(** A line break. *)
Definition nl : string := String (Ascii.ascii_of_nat 10) EmptyString.

Module AuditLog.

(** One row of the SELECT of [get_audit_logs], columns 0 to 10:
    [audit_logs al LEFT JOIN users u].  The columns the handler passes on
    without a default ([id], [timestamp], [user_id], [action]) are never
    NULL; [details] holds any JSON value, or NULL. *)
Record LogRow := mk_log_row {
  al_id : Z;
  al_timestamp : datetime;
  al_user_id : Z;
  u_email : option string;
  al_action : string;
  al_resource_type : option string;
  al_resource_id : option Z;
  al_details : pyval;
  al_ip_address : option string;
  al_user_agent : option string;
  al_status : option string
}.

(** [class AuditLogEntry(BaseModel)] *)
Record AuditLogEntry := mk_entry {
  id : Z;
  timestamp : datetime;
  user_id : Z;
  username : string;
  action : string;
  resource_type : string;
  resource_id : option Z;
  details : pyval;
  ip_address : option string;
  user_agent : option string;
  status : string
}.

(** [class AuditLogResponse(BaseModel)] *)
Record AuditLogResponse := mk_logs_response {
  total_records : Z;
  logs : list AuditLogEntry;
  page : Z;
  per_page : Z;
  filters_applied : list (string * pyval)
}.

(** The query parameters of [GET /logs]. *)
Record LogsQuery := mk_logs_query {
  q_user_id : option Z;
  q_action : option string;
  q_resource_type : option string;
  q_resource_id : option Z;
  q_status : option string;
  q_date_from : option datetime;
  q_date_to : option datetime;
  q_limit : Z;
  q_offset : Z
}.

(** The fragments appended to [sql_parts], with their bound parameters. *)
Inductive part :=
  | SelectLogs
  | AndUserId (v : Z)
  | AndAction (v : string)
  | AndResourceType (v : string)
  | AndResourceId (v : Z)
  | AndStatus (v : string)
  | AndTimestampGe (v : datetime)
  | AndTimestampLe (v : datetime)
  | OrderByTimestampDesc
  | LimitOffset (limit offset : Z).

#[global] Instance part_eq_dec : EqDecision part.
Proof. solve_decision. Defined.

(** The text of the first fragment, as in the source. *)
Definition select_text : string :=
  nl +:+ "            SELECT " +:+ nl
  +:+ "                al.id," +:+ nl
  +:+ "                al.timestamp," +:+ nl
  +:+ "                al.user_id," +:+ nl
  +:+ "                u.email as username," +:+ nl
  +:+ "                al.action," +:+ nl
  +:+ "                al.resource_type," +:+ nl
  +:+ "                al.resource_id," +:+ nl
  +:+ "                al.details," +:+ nl
  +:+ "                al.ip_address," +:+ nl
  +:+ "                al.user_agent," +:+ nl
  +:+ "                al.status" +:+ nl
  +:+ "            FROM audit_logs al" +:+ nl
  +:+ "            LEFT JOIN users u ON al.user_id = u.id" +:+ nl
  +:+ "            WHERE 1=1" +:+ nl
  +:+ "            ".

(** The SQL text of a fragment. *)
Definition render (p : part) : string :=
  match p with
  | SelectLogs => select_text
  | AndUserId _ => "AND al.user_id = :user_id"
  | AndAction _ => "AND al.action = :action"
  | AndResourceType _ => "AND al.resource_type = :resource_type"
  | AndResourceId _ => "AND al.resource_id = :resource_id"
  | AndStatus _ => "AND al.status = :status"
  | AndTimestampGe _ => "AND al.timestamp >= :date_from"
  | AndTimestampLe _ => "AND al.timestamp <= :date_to"
  | OrderByTimestampDesc => "ORDER BY al.timestamp DESC"
  | LimitOffset _ _ => "LIMIT :limit OFFSET :offset"
  end.

(** [" ".join(sql_parts)] *)
Definition sql_text (parts : list part) : string :=
  String.concat " " (render <$> parts).

(** Truth of one condition on one row; a comparison with NULL is not
    true. *)
Definition holds (p : part) (r : LogRow) : bool :=
  match p with
  | AndUserId v => al_user_id r =? v
  | AndAction v => bool_decide (al_action r = v)
  | AndResourceType v => bool_decide (al_resource_type r = Some v)
  | AndResourceId v => bool_decide (al_resource_id r = Some v)
  | AndStatus v => bool_decide (al_status r = Some v)
  | AndTimestampGe t => dt_key t <=? dt_key (al_timestamp r)
  | AndTimestampLe t => dt_key (al_timestamp r) <=? dt_key t
  | SelectLogs | OrderByTimestampDesc | LimitOffset _ _ => true
  end.

(** [r1] may precede [r2] under ORDER BY al.timestamp DESC. *)
Definition newest_first (r1 r2 : LogRow) : Prop :=
  dt_key (al_timestamp r2) ≤ dt_key (al_timestamp r1).

#[global] Instance newest_first_dec : RelDecision newest_first.
Proof. intros r1 r2. unfold newest_first. apply _. Defined.

(** LIMIT and OFFSET, when the fragment is there. *)
Definition window (parts : list part) (rows : list LogRow) : list LogRow :=
  foldl (λ acc p,
           match p with
           | LimitOffset limit offset =>
               take (Z.to_nat limit) (drop (Z.to_nat offset) acc)
           | _ => acc
           end) rows parts.

(** The rows the database answers a select with. *)
Definition execute (table : list LogRow) (parts : list part) : list LogRow :=
  let selected := filter (λ r, forallb (λ p, holds p r) parts = true) table in
  window parts
    (if bool_decide (OrderByTimestampDesc ∈ parts)
     then merge_sort newest_first selected
     else selected).

(** What is sent to the database: a select the model interprets, or a text
    it does not. *)
Inductive statement :=
  | Select (parts : list part)
  | Text (sql : string).

(** The environment of the endpoint. *)
Record World := mk_world {
  log_table : list LogRow;
  logs_fault : option exn;                   (* raised by the first execute *)
  count_fault : option exn;                  (* raised by the second execute *)
  other_scalar : string → exn + option Z;    (* answers to other texts *)
  details_error : pyval → string   (* the text of the ValidationError for a
                                      [details] that is no dict *)
}.

(** [db.execute(...).scalar()]: the first column of the first row, [None]
    when there is no row. *)
Definition scalar (w : World) (st : statement) : exn + option Z :=
  match count_fault w with
  | Some e => inl e
  | None =>
      match st with
      | Select parts => inr (al_id <$> head (execute (log_table w) parts))
      | Text sql => other_scalar w sql
      end
  end.

(** [db.execute(...).fetchall()] *)
Definition fetchall (w : World) (parts : list part) : exn + list LogRow :=
  match logs_fault w with
  | Some e => inl e
  | None => inr (execute (log_table w) parts)
  end.

(** [if x: sql_parts.append(clause); filters_applied[key] = shown x] *)
Definition when_truthy {A B} `{Truthy (option A)} (x : option A) (f : A → B)
    : list B :=
  if truthy x then match x with Some a => [f a] | None => [] end else [].

(** The [sql_parts] that [get_audit_logs] builds. *)
Definition build_query (q : LogsQuery) : list part :=
  [SelectLogs]
    ++ when_truthy (q_user_id q) AndUserId
    ++ when_truthy (q_action q) AndAction
    ++ when_truthy (q_resource_type q) AndResourceType
    ++ when_truthy (q_resource_id q) AndResourceId
    ++ when_truthy (q_status q) AndStatus
    ++ when_truthy (q_date_from q) AndTimestampGe
    ++ when_truthy (q_date_to q) AndTimestampLe
    ++ [OrderByTimestampDesc; LimitOffset (q_limit q) (q_offset q)].

(** The dict [filters_applied]. *)
Definition build_filters_applied (q : LogsQuery) : list (string * pyval) :=
  when_truthy (q_user_id q) (λ v, ("user_id", PInt v))
    ++ when_truthy (q_action q) (λ v, ("action", PStr v))
    ++ when_truthy (q_resource_type q) (λ v, ("resource_type", PStr v))
    ++ when_truthy (q_resource_id q) (λ v, ("resource_id", PInt v))
    ++ when_truthy (q_status q) (λ v, ("status", PStr v))
    ++ when_truthy (q_date_from q) (λ v, ("date_from", PStr (isoformat v)))
    ++ when_truthy (q_date_to q) (λ v, ("date_to", PStr (isoformat v))).

(** [sql_parts[:-1]] *)
Definition but_last {A} (l : list A) : list A := take (length l - 1) l.

(** The count query: the text without its last fragment, after
    [.replace("SELECT al.id, al.timestamp", "SELECT COUNT(*)")].  When the
    replacement leaves the text as it is, the database is sent the very
    select. *)
Definition count_statement (sql_parts : list part) : statement :=
  let text := sql_text (but_last sql_parts) in
  let replaced :=
    str_replace "SELECT al.id, al.timestamp" "SELECT COUNT(*)" text in
  if decide (replaced = text) then Select (but_last sql_parts)
  else Text replaced.

(** [s or d] on an optional string. *)
Definition str_or (s : option string) (d : string) : string :=
  if truthy s then default d s else d.

(** The keyword arguments of [AuditLogEntry(id=row[0], ...,
    status=row[10] or "unknown")]. *)
Definition entry_args (r : LogRow) : AuditLogEntry :=
  mk_entry (al_id r) (al_timestamp r) (al_user_id r)
    (str_or (u_email r) "Unknown") (al_action r)
    (str_or (al_resource_type r) "unknown") (al_resource_id r)
    (if truthy (al_details r) then al_details r else PDict [])
    (al_ip_address r) (al_user_agent r)
    (str_or (al_status r) "unknown").

(** What the model accepts for [details: Optional[Dict[str, Any]]]: [None]
    or a dict (the keys of a JSON object are strings). *)
Definition valid_details (v : pyval) : bool :=
  match v with
  | PNone | PDict _ => true
  | _ => false
  end.

(** The arguments of the row pass the validation of the model.  The other
    fields get values of the declared types from the typed columns. *)
Definition validates (r : LogRow) : bool :=
  valid_details (details (entry_args r)).

(** [AuditLogEntry(...)]: the model validates its arguments and raises a
    [ValidationError] when [details] is neither [None] nor a dict. *)
Definition entry_of_row (w : World) (r : LogRow) : exn + AuditLogEntry :=
  if validates r then inr (entry_args r)
  else inl (mk_exn ValidationError
              (details_error w (details (entry_args r)))).

(** [for row in rows: logs.append(AuditLogEntry(...))] *)
Fixpoint entries_of_rows (w : World) (rows : list LogRow)
    : exn + list AuditLogEntry :=
  match rows with
  | [] => inr []
  | r :: rows' =>
      match entry_of_row w r with
      | inl e => inl e
      | inr entry =>
          match entries_of_rows w rows' with
          | inl e => inl e
          | inr logs => inr (entry :: logs)
          end
      end
  end.

(** [GET /logs] *)
Definition get_audit_logs (w : World) (q : LogsQuery)
    : HTTPException + AuditLogResponse :=
  let failed (e : exn) :=
    inl (mk_http 500 ("Audit log retrieval failed: " +:+ str_exn e)) in
  let sql_parts := build_query q in
  match fetchall w sql_parts with
  | inl e => failed e
  | inr rows =>
      match scalar w (count_statement sql_parts) with
      | inl e => failed e
      | inr total_count =>
          match entries_of_rows w rows with
          | inl e => failed e
          | inr logs =>
              if decide (q_limit q = 0)
              then failed (mk_exn PlainException
                             "integer division or modulo by zero")
              else
                inr (mk_logs_response
                       (if truthy total_count then default 0 total_count
                        else 0)
                       logs
                       (q_offset q / q_limit q + 1)
                       (q_limit q)
                       (build_filters_applied q))
          end
      end
  end.

(** What FastAPI checks before the handler runs: [ge=1, le=1000] on
    [limit], [ge=0] on [offset]. *)
Definition valid_query (q : LogsQuery) : Prop :=
  1 ≤ q_limit q ≤ 1000 ∧ 0 ≤ q_offset q.

(** The criteria that filter: those given and truthy. *)
Definition selects (q : LogsQuery) (r : LogRow) : Prop :=
  (∀ v, q_user_id q = Some v → v ≠ 0 → al_user_id r = v)
  ∧ (∀ v, q_action q = Some v → v ≠ "" → al_action r = v)
  ∧ (∀ v, q_resource_type q = Some v → v ≠ "" → al_resource_type r = Some v)
  ∧ (∀ v, q_resource_id q = Some v → v ≠ 0 → al_resource_id r = Some v)
  ∧ (∀ v, q_status q = Some v → v ≠ "" → al_status r = Some v)
  ∧ (∀ t, q_date_from q = Some t → dt_key t ≤ dt_key (al_timestamp r))
  ∧ (∀ t, q_date_to q = Some t → dt_key (al_timestamp r) ≤ dt_key t).

(** All the rows that match, newest first: the query without LIMIT. *)
Definition matching (w : World) (q : LogsQuery) : list LogRow :=
  execute (log_table w) (but_last (build_query q)).

(** The rows of the page asked for: at most [limit] of the matching rows,
    after the first [offset]. *)
Definition page_rows (w : World) (q : LogsQuery) : list LogRow :=
  take (Z.to_nat (q_limit q)) (drop (Z.to_nat (q_offset q)) (matching w q)).

(** The fragments between the select and the ORDER BY. *)
Definition filters_of (q : LogsQuery) : list part :=
  when_truthy (q_user_id q) AndUserId
    ++ when_truthy (q_action q) AndAction
    ++ when_truthy (q_resource_type q) AndResourceType
    ++ when_truthy (q_resource_id q) AndResourceId
    ++ when_truthy (q_status q) AndStatus
    ++ when_truthy (q_date_from q) AndTimestampGe
    ++ when_truthy (q_date_to q) AndTimestampLe.

End AuditLog.

(** Three log entries, the newest with the largest id. *)
Definition example_logs : list AuditLog.LogRow :=
  [ AuditLog.mk_log_row 10 (mk_datetime 2024 1 1 8 0 0 0) 1 (Some "a@x.org")
      "login" (Some "user") None PNone None None (Some "success");
    AuditLog.mk_log_row 30 (mk_datetime 2024 1 3 8 0 0 0) 2 None
      "upload" None (Some 5) (PDict [("size", PInt 3)]) None None None;
    AuditLog.mk_log_row 20 (mk_datetime 2024 1 2 8 0 0 0) 1 (Some "a@x.org")
      "upload" (Some "document") (Some 4) PNone None None (Some "failure") ].

(** A log entry whose [details] column holds a JSON string. *)
Definition note_log : AuditLog.LogRow :=
  AuditLog.mk_log_row 40 (mk_datetime 2024 1 4 8 0 0 0) 1 (Some "a@x.org")
    "delete" (Some "document") (Some 4) (PStr "note") None None
    (Some "success").

(** The database answers. *)
Definition audit_world (t : list AuditLog.LogRow) : AuditLog.World :=
  AuditLog.mk_world t None None (λ _, inr None)
    (λ _, "1 validation error for AuditLogEntry").

(** The database refuses the count. *)
Definition count_down_world (t : list AuditLog.LogRow) : AuditLog.World :=
  AuditLog.mk_world t None (Some (mk_exn DatabaseError "connection lost"))
    (λ _, inr None) (λ _, "1 validation error for AuditLogEntry").

(** * Properties *)

(** ** The model on concrete inputs *)

Example strftime_job_example :
  strftime_job (mk_datetime 2024 3 1 9 30 0 42) = "20240301_093000_000042".
Proof. reflexivity. Qed.

Example isoformat_example :
  isoformat (mk_datetime 2024 1 5 0 0 0 0) = "2024-01-05T00:00:00"
  ∧ isoformat (mk_datetime 2024 1 5 23 59 7 250) = "2024-01-05T23:59:07.000250".
Proof. by vm_compute. Qed.

Example build_query_example :
  build_query
    (mk_request (Some 7) (Some [3; 5; 9]) "csv" true
       (Some (mk_datetime 2024 1 1 0 0 0 0)) None)
  = [ Sql.SelectDocuments; Sql.AndCaseId 7; Sql.AndIdIn [3; 5; 9];
      Sql.AndUploadGe (mk_datetime 2024 1 1 0 0 0 0); Sql.OrderByUploadDesc ].
Proof. reflexivity. Qed.

Example execute_example :
  d_id <$>
    Sql.execute
      [example_doc 3 7 2; example_doc 4 8 3; example_doc 9 7 1; example_doc 5 7 6]
      (build_query (mk_request (Some 7) (Some [3; 5; 9]) "csv" true None None))
  = [5; 3; 9].
Proof. by vm_compute. Qed.

Example export_lifecycle_example :
  let w := quiet_world [example_doc 3 7 2; example_doc 9 7 1] in
  let req := mk_request (Some 7) None "csv" false None None in
  let jid := "export_20240301_093000_000000" in
  let s1 := (export_documents w req initial_state).2 in
  let s2 := (process_export w jid req s1).2 in
  status_history jid s2 = ["pending"; "processing"; "completed"]
  ∧ (total_records <$> export_jobs s2 !! jid) = Some 2
  ∧ (files s2 !! export_path w jid "csv" ≫= csv_document_ids) = Some [3; 9]
  ∧ background_tasks s1 = [(jid, req)].
Proof. by vm_compute. Qed.

(** ** The document query *)

Section query.

Import Sql.

#[local] Instance upload_desc_total : Total upload_desc.
Proof.
  intros r1 r2. unfold upload_desc.
  destruct (d_upload_date r1), (d_upload_date r2); auto.
  destruct (decide (dt_key d0 ≤ dt_key d)); [left | right]; lia.
Qed.

#[local] Instance upload_desc_trans : Transitive upload_desc.
Proof.
  intros r1 r2 r3. unfold upload_desc.
  destruct (d_upload_date r1), (d_upload_date r2), (d_upload_date r3);
    auto; try tauto; lia.
Qed.

Lemma execute_perm table parts :
  execute table parts
    ≡ₚ filter (λ r, forallb (λ p, holds p r) parts = true) table.
Proof.
  unfold execute. case_bool_decide; [apply merge_sort_Permutation | done].
Qed.

Lemma elem_of_execute table parts r :
  r ∈ execute table parts ↔ r ∈ table ∧ ∀ p, p ∈ parts → holds p r = true.
Proof.
  rewrite execute_perm, list_elem_of_filter, forallb_forall.
  setoid_rewrite <- list_elem_of_In. tauto.
Qed.

Lemma execute_sorted table parts :
  OrderByUploadDesc ∈ parts → StronglySorted upload_desc (execute table parts).
Proof.
  intros Hin. unfold execute. rewrite bool_decide_eq_true_2 by done.
  apply StronglySorted_merge_sort; apply _.
Qed.

Lemma elem_of_sql_if {A} `{Truthy (option A)} (x : option A) clause p :
  p ∈ sql_if x clause ↔ ∃ a, x = Some a ∧ truthy x = true ∧ p = clause a.
Proof.
  unfold sql_if. destruct (truthy x) eqn:Ht, x as [a|]; simpl.
  - rewrite list_elem_of_singleton. split; [intros ->; eauto|].
    by intros (a' & [= ->] & _ & ->).
  - rewrite elem_of_nil. split; [done|]. by intros (a' & [=] & _).
  - rewrite elem_of_nil. split; [done|]. by intros (a' & _ & [=] & _).
  - rewrite elem_of_nil. split; [done|]. by intros (a' & [=] & _).
Qed.

Lemma elem_of_build_query req p :
  p ∈ build_query req ↔
    p = SelectDocuments
    ∨ (∃ c, req_case_id req = Some c ∧ c ≠ 0 ∧ p = AndCaseId c)
    ∨ (∃ ids, req_document_ids req = Some ids ∧ ids ≠ [] ∧ p = AndIdIn ids)
    ∨ (∃ t, req_date_from req = Some t ∧ p = AndUploadGe t)
    ∨ (∃ t, req_date_to req = Some t ∧ p = AndUploadLe t)
    ∨ p = OrderByUploadDesc.
Proof.
  unfold build_query.
  rewrite !elem_of_app, !elem_of_sql_if, !list_elem_of_singleton.
  repeat first [apply Morphisms_Prop.or_iff_morphism ]; try reflexivity.
  - split.
    + intros (c & Hc & Ht & ->). exists c. split_and!; [done| |done].
      rewrite Hc in Ht. by apply negb_true_iff, Z.eqb_neq in Ht.
    + intros (c & Hc & Hnz & ->). exists c. split_and!; [done| |done].
      rewrite Hc. by apply negb_true_iff, Z.eqb_neq.
  - split.
    + intros (ids & Hi & Ht & ->). exists ids. split_and!; [done| |done].
      rewrite Hi in Ht. by destruct ids.
    + intros (ids & Hi & Hne & ->). exists ids. split_and!; [done| |done].
      rewrite Hi. by destruct ids.
  - split.
    + intros (t & Hd & _ & ->). eauto.
    + intros (t & Hd & ->). exists t. by rewrite Hd.
  - split.
    + intros (t & Hd & _ & ->). eauto.
    + intros (t & Hd & ->). exists t. by rewrite Hd.
Qed.

Lemma build_query_ordered req : OrderByUploadDesc ∈ build_query req.
Proof. rewrite elem_of_build_query. tauto. Qed.

Lemma holds_build_query req r :
  (∀ p, p ∈ build_query req → holds p r = true) ↔ selects req r.
Proof.
  unfold selects. split.
  - intros Hall. split_and!.
    + intros c Hc Hnz.
      assert (Hh : holds (AndCaseId c) r = true).
      { apply Hall, elem_of_build_query. right; left. eauto. }
      simpl in Hh. destruct (d_case_id r) as [c'|]; [|done].
      by apply Z.eqb_eq in Hh as ->.
    + intros ids Hi Hne.
      assert (Hh : holds (AndIdIn ids) r = true).
      { apply Hall, elem_of_build_query. right; right; left. eauto. }
      by apply bool_decide_eq_true in Hh.
    + intros t Ht.
      assert (Hh : holds (AndUploadGe t) r = true).
      { apply Hall, elem_of_build_query. do 3 right; left. eauto. }
      simpl in Hh. destruct (d_upload_date r) as [u|]; [|done].
      exists u. split; [done|]. by apply Z.leb_le.
    + intros t Ht.
      assert (Hh : holds (AndUploadLe t) r = true).
      { apply Hall, elem_of_build_query. do 4 right; left. eauto. }
      simpl in Hh. destruct (d_upload_date r) as [u|]; [|done].
      exists u. split; [done|]. by apply Z.leb_le.
  - intros (Hcase & Hids & Hfrom & Hto) p. rewrite elem_of_build_query.
    intros [->|[(c & Hc & Hnz & ->)|[(ids & Hi & Hne & ->)|
              [(t & Hd & ->)|[(t & Hd & ->)| ->]]]]]; simpl; try done.
    + rewrite (Hcase c Hc Hnz). apply Z.eqb_refl.
    + apply bool_decide_eq_true, (Hids ids Hi Hne).
    + destruct (Hfrom t Hd) as (u & -> & Hle). by apply Z.leb_le.
    + destruct (Hto t Hd) as (u & -> & Hle). by apply Z.leb_le.
Qed.

(** C5, as amended: a filter applies when its criterion is given and truthy
    (a case id other than 0, a non-empty id list, any date bound).  The rows
    exported are exactly the rows of the table that pass all those filters,
    none more often than in the table, in descending order of upload date;
    with [document_ids = [3, 5, 9]] and no other criterion they are exactly
    the stored documents whose id is 3, 5 or 9. *)
Theorem C5_truthy_filters_conjunctive_sorted table req :
  (∀ r, r ∈ execute table (build_query req) ↔ r ∈ table ∧ selects req r)
  ∧ execute table (build_query req) ⊆+ table
  ∧ StronglySorted upload_desc (execute table (build_query req))
  ∧ (∀ fmt meta r,
       r ∈ execute table
             (build_query (mk_request None (Some [3; 5; 9]) fmt meta None None))
       ↔ r ∈ table ∧ d_id r ∈ [3; 5; 9]).
Proof.
  split_and!.
  - intros r. by rewrite elem_of_execute, holds_build_query.
  - rewrite execute_perm. apply sublist_submseteq, sublist_filter.
  - apply execute_sorted, build_query_ordered.
  - intros fmt meta r. rewrite elem_of_execute, holds_build_query.
    unfold selects; simpl. split.
    + intros (Hin & _ & Hids & _). split; [done|]. by apply Hids.
    + intros (Hin & Hid). split_and!; [done|done| |done|done].
      by intros ids [= <-] _.
Qed.

(** C5, as stated, fails: a case id of 0 or an empty id list is given, and
    yet the row exported here has another case id and an id that is not in
    the list. *)
Lemma C5_given_filter_not_applied :
  let doc := mk_row 1 "memo.txt" (Some 7) None None None None None None
               PNone PNone None in
  let req := mk_request (Some 0) (Some []) "csv" true None None in
  doc ∈ execute [doc] (build_query req)
  ∧ d_case_id doc ≠ req_case_id req
  ∧ d_id doc ∉ default [] (req_document_ids req).
Proof.
  intros doc req. split_and!.
  - apply elem_of_execute. split; [by left|].
    apply holds_build_query. unfold selects; simpl.
    split_and!; by intros ? [= <-].
  - done.
  - apply not_elem_of_nil.
Qed.

(** C10: the criteria are tested by truthiness.  A request with case id 0
    builds the query of the same request without a case id, and a request
    with an empty id list builds the query of the same request without an
    id list; with no other criterion the latter exports the whole table
    rather than nothing. *)
Theorem C10_falsy_criteria_ignored ids cid fmt meta dfrom dto :
  build_query (mk_request (Some 0) ids fmt meta dfrom dto)
    = build_query (mk_request None ids fmt meta dfrom dto)
  ∧ build_query (mk_request cid (Some []) fmt meta dfrom dto)
    = build_query (mk_request cid None fmt meta dfrom dto)
  ∧ (∀ table,
       execute table (build_query (mk_request None (Some []) fmt meta None None))
         ≡ₚ table).
Proof.
  split_and!; [done|done|].
  intros table. rewrite execute_perm. simpl.
  induction table as [|r table IH]; [done|].
  rewrite filter_cons_True by done. by f_equiv.
Qed.

End query.

(** ** Reasoning about the monad *)

Section frames.

Context {E : Type} (R : relation State) `{!PreOrder R}.

Lemma preserves_ret {A} (a : A) : preserves R (mret a : M E A).
Proof. intros s r s' [= _ <-]. reflexivity. Qed.

Lemma preserves_raise {A} (e : E) : preserves R (raise e : M E A).
Proof. intros s r s' [= _ <-]. reflexivity. Qed.

Lemma preserves_bind {A B} (m : M E A) (k : A → M E B) :
  preserves R m → (∀ a, preserves R (k a)) → preserves R (m ≫= k).
Proof.
  intros Hm Hk s r s'. unfold mbind, M_bind, bind.
  destruct (m s) as [[e|a] s1] eqn:Hrun.
  - intros [= _ <-]. eauto.
  - intros Hka. etrans; [eapply Hm | eapply Hk]; eauto.
Qed.

Lemma preserves_try_except {E' A} (m : M E' A) (h : E' → M E A) :
  preserves R m → (∀ e, preserves R (h e)) → preserves R (try_except m h).
Proof.
  intros Hm Hh s r s'. unfold try_except.
  destruct (m s) as [[e|a] s1] eqn:Hrun.
  - intros Hhe. etrans; [eapply Hm | eapply Hh]; eauto.
  - intros [= _ <-]. eauto.
Qed.

Lemma preserves_for_each {A} (xs : list A) (body : A → M E unit) :
  (∀ x, preserves R (body x)) → preserves R (for_each xs body).
Proof.
  intros Hbody. induction xs as [|x xs IH]; simpl.
  - apply preserves_ret.
  - apply preserves_bind; auto.
Qed.

Lemma preserves_modify (f : State → State) :
  (∀ s, R s (f s)) → preserves R (modify f : M E unit).
Proof. intros Hf s r s' [= _ <-]. apply Hf. Qed.

End frames.

Lemma preserves_try_except_import (R : relation State) `{!PreOrder R} {A}
    (m h : M exn A) :
  preserves R m → preserves R h → preserves R (try_except_import m h).
Proof.
  intros Hm Hh s r s'. unfold try_except_import.
  destruct (m s) as [[e|a] s1] eqn:Hrun.
  - destruct (decide _).
    + intros Hhe. etrans; [eapply Hm | eapply Hh]; eauto.
    + intros [= _ <-]. eauto.
  - intros [= _ <-]. eauto.
Qed.


Lemma bind_run {E A B} (m : M E A) (k : A → M E B) s :
  (m ≫= k) s
    = match m s with
      | (inl e, s') => (inl e, s')
      | (inr a, s') => k a s'
      end.
Proof. reflexivity. Qed.

(** ** Frames of the input/output steps *)

Section io_frames.

Context (w : World).

Lemma produce_file_job_side jid req :
  preserves (unchanged job_side) (produce_file w jid req).
Proof.
  assert (Hopen : ∀ p, preserves (unchanged job_side) (open_w w p))
    by (intros p; step_frame).
  assert (Hwrite : ∀ p f g, preserves (unchanged job_side) (write w p f g))
    by (intros p f g; step_frame).
  unfold produce_file. apply preserves_bind; [apply _|step_frame|intros rows].
  apply preserves_bind; [apply _| |intros; step_frame].
  unfold write_export_file, write_by_format.
  apply preserves_bind; [apply _|step_frame|intros _].
  repeat case_decide.
  - unfold write_csv. apply preserves_bind; [apply _|done|intros _].
    apply preserves_bind; [apply _|apply Hwrite|intros _].
    apply preserves_for_each; [apply _|intros; apply Hwrite].
  - unfold write_json. apply preserves_bind; [apply _|done|intros _].
    apply preserves_bind; [apply _|step_frame|intros t]. apply Hwrite.
  - unfold write_xlsx. apply preserves_try_except_import; [apply _| |step_frame].
    apply preserves_bind; [apply _|step_frame|intros _].
    unfold to_excel. apply preserves_bind; [apply _|done|intros _]. apply Hwrite.
  - step_frame.
Qed.

Lemma produce_file_off_path jid req :
  preserves (unchanged (off_path (export_path w jid (req_format req))))
    (produce_file w jid req).
Proof.
  set (p := export_path w jid (req_format req)).
  assert (Hopen : preserves (unchanged (off_path p)) (open_w w p)).
  { step_frame. apply delete_insert_eq. }
  assert (Hwrite : ∀ f g, preserves (unchanged (off_path p)) (write w p f g)).
  { intros f g. step_frame; apply delete_alter_eq. }
  unfold produce_file. apply preserves_bind; [apply _|step_frame|intros rows].
  apply preserves_bind; [apply _| |intros; step_frame].
  unfold write_export_file, write_by_format. fold p.
  apply preserves_bind; [apply _|step_frame|intros _].
  repeat case_decide.
  - unfold write_csv. apply preserves_bind; [apply _|done|intros _].
    apply preserves_bind; [apply _|apply Hwrite|intros _].
    apply preserves_for_each; [apply _|intros; apply Hwrite].
  - unfold write_json. apply preserves_bind; [apply _|done|intros _].
    apply preserves_bind; [apply _|step_frame|intros t]. apply Hwrite.
  - unfold write_xlsx. apply preserves_try_except_import; [apply _| |step_frame].
    apply preserves_bind; [apply _|step_frame|intros _].
    unfold to_excel. apply preserves_bind; [apply _|done|intros _]. apply Hwrite.
  - step_frame.
Qed.

End io_frames.

(** ** The background task, step by step *)

Lemma mark_processing_run jid j s :
  export_jobs s !! jid = Some j →
  mark_processing jid s = (inr tt, processing_state jid j s).
Proof.
  intros Hj. unfold mark_processing, set_status, mbind, M_bind, bind, setattr.
  by rewrite Hj.
Qed.

Lemma mark_completed_run w jid j rows s :
  export_jobs s !! jid = Some j →
  mark_completed w jid rows s
    = (inr tt,
       mk_state
         (<[jid := completed_job jid j (utcnow w (ticks s)) (length rows)]>
            (export_jobs s))
         (files s) (dirs s) (background_tasks s) (S (ticks s)) (writes s)
         (status_log s ++ [(jid, "completed")])).
Proof.
  intros Hj.
  unfold mark_completed, set_status, mbind, M_bind, bind, setattr, modify, now.
  rewrite Hj. simpl. repeat (rewrite lookup_insert_eq; simpl).
  unfold set_export_jobs; simpl. by rewrite !insert_insert_eq.
Qed.

Lemma on_failure_run jid j e s :
  export_jobs s !! jid = Some j →
  on_failure jid e s
    = (inr tt,
       mk_state (<[jid := failed_job j e]> (export_jobs s))
         (files s) (dirs s) (background_tasks s) (ticks s) (writes s)
         (status_log s ++ [(jid, "failed")])).
Proof.
  intros Hj.
  unfold on_failure, set_status, mbind, M_bind, bind, setattr, modify.
  rewrite Hj. simpl. repeat (rewrite lookup_insert_eq; simpl).
  unfold set_export_jobs; simpl. by rewrite !insert_insert_eq.
Qed.

(** [process_export] on a stored job: it marks the job, runs
    [produce_file], and records the result; nothing is raised. *)
Lemma process_export_run w jid req j s :
  export_jobs s !! jid = Some j →
  ∃ r s2,
    produce_file w jid req (processing_state jid j s) = (r, s2)
    ∧ process_export w jid req s = (inr tt, outcome_state w jid j s r s2).
Proof.
  intros Hj.
  destruct (produce_file w jid req (processing_state jid j s))
    as [r s2] eqn:Hio.
  exists r, s2. split; [done|].
  pose proof (produce_file_job_side w jid req _ _ _ Hio) as Hside.
  unfold unchanged, job_side in Hside. simpl in Hside.
  injection Hside as Hjobs Hlog Htasks.
  assert (Hj2 : export_jobs s2 !! jid = Some (with_status "processing" j))
    by (rewrite Hjobs; apply lookup_insert_eq).
  unfold process_export, try_except.
  rewrite bind_run, (mark_processing_run _ _ _ Hj).
  unfold run_export. rewrite bind_run, Hio. destruct r as [e|rows].
  - rewrite (on_failure_run _ _ _ _ Hj2). unfold outcome_state.
    rewrite Hjobs, Hlog, Htasks, <- app_assoc, insert_insert_eq. done.
  - rewrite (mark_completed_run _ _ _ _ _ Hj2). unfold outcome_state.
    rewrite Hjobs, Hlog, Htasks, <- app_assoc, insert_insert_eq. done.
Qed.

(** ** What the serializers leave on disk *)

Lemma alter_as_insert {A} (f : A → A) (p : string) (m : gmap string A) c :
  m !! p = Some c → alter f p m = <[p := f c]> m.
Proof.
  intros Hp. apply map_eq. intros q. destruct (decide (p = q)) as [<-|Hne].
  - by rewrite lookup_alter_eq, lookup_insert_eq, Hp.
  - by rewrite lookup_alter_ne, lookup_insert_ne.
Qed.

Section serializers.

Context (w : World) (p : string) (req : ExportRequest).

Lemma open_w_ok s s' :
  open_w w p s = (inr tt, s') →
  open_fault w = None ∧ s' = set_files (insert p EmptyFile) s.
Proof. unfold open_w. destruct (open_fault w); by intros [= <-]. Qed.

Lemma write_ok f g s s' :
  write w p f g s = (inr tt, s') →
  s' = set_writes S (set_files (alter f p) s).
Proof. unfold write. destruct (write_fault w _); by intros [= <-]. Qed.

Lemma for_each_writerow_ok (f : Row → list cell) rows :
  ∀ s s' ls,
    files s !! p = Some (CsvFile ls) →
    for_each rows (λ r, writerow w p (f r)) s = (inr tt, s') →
    files s' = <[p := CsvFile (ls ++ (f <$> rows))]> (files s).
Proof.
  induction rows as [|r rows IH]; intros s s' ls Hp; simpl.
  - intros [= <-]. rewrite app_nil_r. by rewrite insert_id.
  - rewrite bind_run.
    destruct (writerow w p (f r) s) as [[e|[]] s1] eqn:Hrow; [done|].
    apply write_ok in Hrow. subst s1. intros Hloop.
    eapply (IH _ _ (ls ++ [f r])) in Hloop.
    + rewrite Hloop. simpl. rewrite (alter_as_insert _ _ _ _ Hp).
      by rewrite insert_insert_eq, <- app_assoc.
    + simpl. by rewrite lookup_alter_eq, Hp.
Qed.

Lemma write_csv_ok rows s s' :
  write_csv w p req rows s = (inr tt, s') →
  files s'
    = <[p := CsvFile (csv_headers req :: (csv_data req <$> rows))]> (files s).
Proof.
  unfold write_csv. rewrite bind_run.
  destruct (open_w w p s) as [[e|[]] s1] eqn:Hopen; [done|].
  apply open_w_ok in Hopen as [_ ->]. rewrite bind_run.
  destruct (writerow _ _ _ _) as [[e|[]] s2] eqn:Hhead; [done|].
  apply write_ok in Hhead. subst s2. intros Hloop.
  eapply (for_each_writerow_ok _ _ _ _ [csv_headers req]) in Hloop.
  - rewrite Hloop. simpl.
    rewrite (alter_as_insert _ _ _ EmptyFile) by apply lookup_insert_eq.
    by rewrite !insert_insert_eq.
  - simpl. by rewrite lookup_alter_eq, lookup_insert_eq.
Qed.

Lemma write_json_ok rows s s' :
  write_json w p req rows s = (inr tt, s') →
  ∃ t, files s' = <[p := JsonFile (json_export req rows t)]> (files s).
Proof.
  unfold write_json. rewrite bind_run.
  destruct (open_w w p s) as [[e|[]] s1] eqn:Hopen; [done|].
  apply open_w_ok in Hopen as [_ ->]. rewrite bind_run. unfold now at 1.
  intros Hdump. apply write_ok in Hdump. subst s'. simpl.
  eexists. rewrite (alter_as_insert _ _ _ EmptyFile) by apply lookup_insert_eq.
  by rewrite insert_insert_eq.
Qed.

Lemma write_xlsx_ok rows s s' :
  write_xlsx w p req rows s = (inr tt, s') →
  files s' = <[p := XlsxFile (xlsx_record req <$> rows)]> (files s).
Proof.
  unfold write_xlsx, try_except_import. rewrite bind_run.
  unfold import_pandas. destruct (spreadsheet_libs w); simpl; [|done].
  unfold to_excel. rewrite bind_run.
  destruct (open_w w p s) as [[e|[]] s1] eqn:Hopen.
  - by destruct (decide _).
  - apply open_w_ok in Hopen as [_ ->].
    destruct (write w p _ _ _) as [[e|[]] s2] eqn:Hw.
    + by destruct (decide _).
    + intros [= <-]. apply write_ok in Hw. subst s2. simpl.
      rewrite (alter_as_insert _ _ _ EmptyFile) by apply lookup_insert_eq.
      by rewrite insert_insert_eq.
Qed.

(** Without the spreadsheet libraries the [xlsx] branch raises its fixed
    exception before touching anything. *)
Lemma write_xlsx_no_library rows s :
  spreadsheet_libs w = false →
  write_xlsx w p req rows s
    = (inl (mk_exn PlainException
              "pandas and openpyxl required for XLSX export"), s).
Proof.
  intros Hlib. unfold write_xlsx, try_except_import. rewrite bind_run.
  unfold import_pandas. by rewrite Hlib.
Qed.

(** A finished file replaces whatever was at [p] when the branch of a
    supported format returns. *)
Lemma write_by_format_ok rows s s' :
  req_format req ∈ ["csv"; "json"; "xlsx"] →
  write_by_format w p req rows s = (inr tt, s') →
  ∃ c, files s' = <[p := c]> (files s) ∧ finished c.
Proof.
  intros Hfmt. unfold write_by_format. repeat case_decide.
  - intros ->%write_csv_ok. by eexists.
  - intros [t ->]%write_json_ok. by eexists.
  - intros ->%write_xlsx_ok. by eexists.
  - rewrite !elem_of_cons, elem_of_nil in Hfmt. tauto.
Qed.

(** When [open] fails, or the libraries are missing for [xlsx], no branch
    changes a file. *)
Lemma write_by_format_early_fault rows :
  is_Some (open_fault w)
    ∨ (req_format req = "xlsx" ∧ spreadsheet_libs w = false) →
  preserves (unchanged files) (write_by_format w p req rows).
Proof.
  intros Hfault s r s'. unfold write_by_format. repeat case_decide.
  - destruct Hfault as [[e He]|[? _]]; [|congruence].
    unfold write_csv. rewrite bind_run. unfold open_w. rewrite He.
    by intros [= _ <-].
  - destruct Hfault as [[e He]|[? _]]; [|congruence].
    unfold write_json. rewrite bind_run. unfold open_w. rewrite He.
    by intros [= _ <-].
  - destruct Hfault as [[e He]|[_ Hlib]].
    + unfold write_xlsx, try_except_import, to_excel. rewrite !bind_run.
      unfold import_pandas, open_w. rewrite He.
      destruct (spreadsheet_libs w); simpl.
      * destruct (decide _); by intros [= _ <-].
      * by intros [= _ <-].
    + rewrite write_xlsx_no_library by done. by intros [= _ <-].
  - by intros [= _ <-].
Qed.

End serializers.

(** ** The query-and-write phase *)

Section produce.

Context (w : World) (jid : string) (req : ExportRequest).

Lemma produce_file_ok_inv s rows s2 :
  produce_file w jid req s = (inr rows, s2) →
  rows = Sql.execute (table w) (build_query req)
  ∧ write_by_format w (export_path w jid (req_format req)) req rows
      (set_dirs (λ ds, {[export_dir (settings w)]} ∪ ds) s) = (inr tt, s2).
Proof.
  unfold produce_file. rewrite bind_run. unfold db_execute.
  destruct (db_fault w); [done|]. simpl. rewrite bind_run.
  unfold write_export_file. rewrite bind_run. unfold mkdir.
  destruct (mkdir_fault w); [done|].
  destruct (write_by_format _ _ _ _ _) as [[e|[]] s3] eqn:Hw; [done|].
  by intros [= <- <-].
Qed.

Lemma produce_file_early_fault :
  is_Some (db_fault w) ∨ is_Some (mkdir_fault w) ∨ is_Some (open_fault w)
    ∨ (req_format req = "xlsx" ∧ spreadsheet_libs w = false) →
  preserves (unchanged files) (produce_file w jid req).
Proof.
  intros Hfault s r s'. unfold produce_file. rewrite bind_run.
  unfold db_execute. destruct (db_fault w) as [e|] eqn:Hdb.
  { by intros [= _ <-]. }
  simpl. rewrite bind_run. unfold write_export_file. rewrite bind_run.
  unfold mkdir. destruct (mkdir_fault w) as [e|] eqn:Hmk.
  { by intros [= _ <-]. }
  destruct Hfault as [[e [=]]|[[e [=]]|Hfault]].
  destruct (write_by_format _ _ _ _ _) as [[e|[]] s3] eqn:Hw;
    intros [= _ <-];
    by apply write_by_format_early_fault in Hw.
Qed.

Lemma produce_file_xlsx_no_library s :
  req_format req = "xlsx" → spreadsheet_libs w = false →
  ∃ e s2,
    produce_file w jid req s = (inl e, s2) ∧ files s2 = files s
    ∧ (db_fault w = None → mkdir_fault w = None →
       e = mk_exn PlainException "pandas and openpyxl required for XLSX export").
Proof.
  intros Hfmt Hlib. unfold produce_file. rewrite bind_run.
  unfold db_execute. destruct (db_fault w) as [e|] eqn:Hdb.
  { by exists e, s. }
  simpl. rewrite bind_run. unfold write_export_file. rewrite bind_run.
  unfold mkdir. destruct (mkdir_fault w) as [e|] eqn:Hmk.
  { by exists e, s. }
  unfold write_by_format. rewrite Hfmt. simpl.
  rewrite write_xlsx_no_library by done. by eexists _, _.
Qed.

End produce.

(** ** Submission *)

Lemma export_documents_run w req s :
  let jid := "export_" +:+ strftime_job (utcnow w (ticks s)) in
  let job :=
    mk_job jid "pending" (req_format req) (utcnow w (S (ticks s)))
      None None 0 None in
  export_documents w req s
    = (inr job,
       mk_state (<[jid := job]> (export_jobs s)) (files s) (dirs s)
         (background_tasks s ++ [(jid, req)]) (S (S (ticks s))) (writes s)
         (status_log s ++ [(jid, "pending")])).
Proof. reflexivity. Qed.

Lemma export_documents_inv w req s job s1 :
  export_documents w req s = (inr job, s1) →
  as_submitted job
  ∧ format job = req_format req
  ∧ export_jobs s1 = <[job_id job := job]> (export_jobs s)
  ∧ background_tasks s1 = background_tasks s ++ [(job_id job, req)]
  ∧ status_log s1 = status_log s ++ [(job_id job, "pending")]
  ∧ files s1 = files s.
Proof. rewrite export_documents_run. by intros [= <- <-]. Qed.

(** C1, as amended: submission does not look at the format.  For every
    request, supported format or not, [export_documents] returns a pending
    job that echoes the format, stores it under its id and queues the
    background task; no request is rejected. *)
Theorem C1_submit_accepts_every_format w req s :
  ∃ job s1,
    export_documents w req s = (inr job, s1)
    ∧ as_submitted job
    ∧ format job = req_format req
    ∧ export_jobs s1 !! job_id job = Some job
    ∧ background_tasks s1 = background_tasks s ++ [(job_id job, req)].
Proof.
  eexists _, _. split; [apply export_documents_run|].
  split_and!; try done. simpl. apply lookup_insert_eq.
Qed.

(** C1, as stated, fails: the format [pdf] is not supported, and yet the
    request is answered with a job, which is in the job table. *)
Lemma C1_unsupported_format_creates_job :
  let req := mk_request None None "pdf" true None None in
  (req_format req ∉ ["csv"; "json"; "xlsx"])
  ∧ (∃ job s1,
       export_documents (quiet_world []) req initial_state = (inr job, s1)
       ∧ export_jobs s1 !! job_id job = Some job
       ∧ status job = "pending").
Proof.
  split.
  - rewrite !not_elem_of_cons. split_and!; try done. apply not_elem_of_nil.
  - eexists _, _. split; [apply export_documents_run|]. by vm_compute.
Qed.

(** ** The life of a job *)

Lemma status_history_snoc jid s s' (new : list string) :
  status_log s' = status_log s ++ ((λ v, (jid, v)) <$> new) →
  status_history jid s' = status_history jid s ++ new.
Proof.
  intros Hlog. unfold status_history. rewrite Hlog, filter_app, fmap_app.
  f_equal. clear Hlog. induction new as [|v new IH]; [done|].
  rewrite fmap_cons, filter_cons_True by done.
  rewrite fmap_cons. simpl. by rewrite IH.
Qed.

Lemma outcome_state_log w jid j s r s2 :
  status_log (outcome_state w jid j s r s2)
    = status_log s
        ++ ((λ v, (jid, v)) <$>
              ["processing"; if r is inr _ then "completed" else "failed"]).
Proof. by destruct r. Qed.

Lemma outcome_state_job w jid j s r s2 :
  export_jobs (outcome_state w jid j s r s2) !! jid
    = Some (match r with
            | inr rows => completed_job jid j (utcnow w (ticks s2)) (length rows)
            | inl e => failed_job j e
            end).
Proof. destruct r; apply lookup_insert_eq. Qed.

(** C2, as amended: when the query, the directory setup or the
    serialization raises [e], the task ends normally, the job is [failed]
    and its [error_message] is the text of [e]; [completed_at] is left as
    it was, which for a submitted job is null. *)
Theorem C2_failure_sets_status_and_message w jid req j s e s2 :
  export_jobs s !! jid = Some j →
  produce_file w jid req (processing_state jid j s) = (inl e, s2) →
  ∃ s' j',
    process_export w jid req s = (inr tt, s')
    ∧ export_jobs s' !! jid = Some j'
    ∧ status j' = "failed"
    ∧ error_message j' = Some (str_exn e)
    ∧ completed_at j' = completed_at j.
Proof.
  intros Hj Hio.
  destruct (process_export_run w jid req j s Hj) as (r & s2' & Hio' & Hrun).
  rewrite Hio in Hio'. injection Hio' as <- <-.
  eexists _, _. split; [exact Hrun|]. split; [apply outcome_state_job|done].
Qed.

Lemma C2_failure_sets_status_and_message_witness :
  let req := mk_request (Some 7) None "csv" true None None in
  let jid := "export_20240301_093000_000000" in
  let s := (export_documents db_down_world req initial_state).2 in
  ∃ s' j',
    process_export db_down_world jid req s = (inr tt, s')
    ∧ export_jobs s' !! jid = Some j'
    ∧ status j' = "failed"
    ∧ error_message j' = Some "connection refused"
    ∧ completed_at j' = None.
Proof.
  intros req jid s.
  apply (C2_failure_sets_status_and_message db_down_world jid req
           (mk_job jid "pending" "csv" (example_clock 1) None None 0 None) s
           (mk_exn DatabaseError "connection refused")
           (processing_state jid
              (mk_job jid "pending" "csv" (example_clock 1) None None 0 None) s));
    vm_compute; reflexivity.
Defined.

(** C2, as stated, fails: the query raises, the job ends [failed] with its
    [error_message] set, and [completed_at] is still null. *)
Lemma C2_completed_at_not_set_on_failure :
  let req := mk_request (Some 7) None "csv" true None None in
  let jid := "export_20240301_093000_000000" in
  let s := (export_documents db_down_world req initial_state).2 in
  let s' := (process_export db_down_world jid req s).2 in
  (status <$> export_jobs s' !! jid) = Some "failed"
  ∧ (error_message <$> export_jobs s' !! jid) = Some (Some "connection refused")
  ∧ (completed_at <$> export_jobs s' !! jid) = Some None.
Proof. by vm_compute. Qed.

Lemma get_export_job_state jid s r s' :
  get_export_job jid s = (r, s') → s' = s.
Proof. unfold get_export_job. case_match; by intros [= _ <-]. Qed.

Lemma download_export_job_side w jid :
  preserves (unchanged job_side) (download_export w jid).
Proof.
  intros s r s'. unfold download_export. repeat case_match; by intros [= _ <-].
Qed.

Lemma job_invariant_pending j : as_submitted j → job_invariant j.
Proof.
  intros (Hst & _ & Hurl & Hn & Herr). unfold job_invariant.
  rewrite Hst, Hurl, Herr. split_and!; [|  |done].
  - split; [by intros [? ?]|done].
  - split; [by intros [? ?]|done].
Qed.

(** ** The process between handler runs *)

Lemma status_history_other jid jid0 s s' (new : list string) :
  status_log s' = status_log s ++ ((λ v, (jid0, v)) <$> new) →
  jid ≠ jid0 →
  status_history jid s' = status_history jid s.
Proof.
  intros Hlog Hne. unfold status_history. rewrite Hlog, filter_app, fmap_app.
  rewrite <- (app_nil_r (_ <$> filter _ (status_log s))) at 2. f_equal.
  clear Hlog. induction new as [|v new IH]; [done|].
  rewrite fmap_cons, filter_cons_False; [done|]. simpl. congruence.
Qed.

(** Run for an id that is not stored, the task raises. *)
Lemma process_export_key_error w jid req s :
  export_jobs s !! jid = None →
  process_export w jid req s = (inl (key_error jid), s).
Proof.
  intros Hj. unfold process_export, try_except. rewrite bind_run.
  unfold mark_processing, set_status. rewrite bind_run. unfold setattr at 1.
  rewrite Hj. unfold on_failure, set_status. rewrite !bind_run.
  unfold setattr at 1. by rewrite Hj.
Qed.

Lemma tasks_of_lookup jid s n req :
  background_tasks s !! n = Some (jid, req) → (0 < tasks_of jid s)%nat.
Proof.
  intros Hn. unfold tasks_of.
  rewrite <- (take_drop_middle _ _ _ Hn), filter_app, filter_cons_True by done.
  rewrite length_app. simpl. lia.
Qed.

Lemma tasks_of_queued jid s : (0 < tasks_of jid s)%nat → jid ∈ queued s.
Proof.
  unfold tasks_of, queued. intros Hpos.
  destruct (filter _ _) as [|[jid' req] l] eqn:Hf; [simpl in Hpos; lia|].
  assert (Hin : (jid', req) ∈ filter (λ t, t.1 = jid) (background_tasks s))
    by (rewrite Hf; by left).
  apply list_elem_of_filter in Hin as [Heq Hin]. simpl in Heq. subst jid'.
  apply list_elem_of_fmap. by exists (jid, req).
Qed.

Lemma tasks_of_delete jid s n jid0 req :
  background_tasks s !! n = Some (jid0, req) →
  tasks_of jid s
    = ((if decide (jid0 = jid) then 1 else 0)
       + tasks_of jid (set_background_tasks (delete n) s))%nat.
Proof.
  intros Hn. unfold tasks_of. simpl. rewrite delete_take_drop.
  rewrite <- (take_drop_middle _ _ _ Hn) at 1.
  rewrite !filter_app, !length_app.
  case_decide.
  - rewrite filter_cons_True by done. simpl. lia.
  - rewrite filter_cons_False by done. simpl. lia.
Qed.

Lemma tasks_of_ext jid s s' :
  background_tasks s' = background_tasks s → tasks_of jid s' = tasks_of jid s.
Proof. unfold tasks_of. by intros ->. Qed.

(** The three parts of the state [job_inv] reads for [jid] are the same in
    [s'] as in [s]. *)
Lemma job_inv_ext jid k s s' :
  export_jobs s' !! jid = export_jobs s !! jid →
  status_history jid s' = status_history jid s →
  tasks_of jid s' = tasks_of jid s →
  job_inv jid k s → job_inv jid k s'.
Proof.
  intros Hj Hh Hq. destruct k as [|[|k]]; simpl; [| |done];
    by rewrite Hj, Hh, Hq.
Qed.

Lemma job_inv_submit jid w req s k :
  job_inv jid k s →
  job_inv jid (k + (if submits jid (Submit w req) s then 1 else 0))
    (export_documents w req s).2.
Proof.
  intros Hinv. rewrite export_documents_run. fold (next_job_id w s). simpl.
  set (jid0 := next_job_id w s).
  set (job := mk_job jid0 "pending" _ _ _ _ _ _).
  set (s' := mk_state _ _ _ _ _ _ _).
  assert (Hlog : status_log s'
                 = status_log s ++ ((λ v, (jid0, v)) <$> ["pending"])) by done.
  case_bool_decide as Hid.
  - (* the submission generates [jid] *)
    destruct k as [|k]; [|by rewrite Nat.add_1_r].
    destruct Hinv as (Hnone & Hh & Hq). simpl. exists job.
    split; [subst jid; apply lookup_insert_eq|]. left. split_and!.
    + done.
    + subst jid. by rewrite (status_history_snoc _ _ _ _ Hlog), Hh.
    + unfold tasks_of in *. simpl. rewrite filter_app, length_app, Hq.
      by rewrite filter_cons_True by done.
  - rewrite Nat.add_0_r. revert Hinv. apply job_inv_ext.
    + simpl. by rewrite lookup_insert_ne.
    + by apply (status_history_other _ _ _ _ _ Hlog).
    + unfold tasks_of. simpl. rewrite filter_app, length_app.
      rewrite filter_cons_False by done. simpl. lia.
Qed.

Lemma job_inv_task jid w n jid0 req s k :
  background_tasks s !! n = Some (jid0, req) →
  job_inv jid k s →
  job_inv jid k
    (process_export w jid0 req (set_background_tasks (delete n) s)).2.
Proof.
  intros Hn Hinv. set (sq := set_background_tasks (delete n) s).
  pose proof (tasks_of_delete jid s n jid0 req Hn) as Hdel. fold sq in Hdel.
  destruct (export_jobs s !! jid0) as [j0|] eqn:Hj0.
  - destruct (process_export_run w jid0 req j0 sq Hj0) as (r & s2 & _ & Hrun).
    rewrite Hrun. simpl.
    set (s' := outcome_state w jid0 j0 sq r s2).
    set (j' := match r with
               | inr rows =>
                   completed_job jid0 j0 (utcnow w (ticks s2)) (length rows)
               | inl e => failed_job j0 e
               end).
    assert (Hjobs : export_jobs s' = <[jid0 := j']> (export_jobs s))
      by by destruct r.
    assert (Hq : tasks_of jid s' = tasks_of jid sq)
      by (apply tasks_of_ext; by destruct r).
    assert (Hlog : status_log s' = status_log s
              ++ ((λ v, (jid0, v)) <$> ["processing"; status j']))
      by by destruct r.
    assert (Hterm : status j' = "completed" ∨ status j' = "failed")
      by (destruct r; auto).
    assert (Hdone : as_submitted j0 → job_invariant j').
    { intros (Hst & Hat & Hurl & Hrec & Herr).
      unfold job_invariant. destruct r as [e|rows]; simpl;
        rewrite ?Hurl, ?Herr; split_and!; try done;
        split; (done || by intros [? ?]). }
    clearbody s' j'.
    destruct (decide (jid0 = jid)) as [->|Hne].
    + (* the task of [jid] *)
      destruct k as [|[|k]]; [| |done].
      * destruct Hinv as (Hnone & _). congruence.
      * destruct Hinv as (j & Hj & Hcases). rewrite Hj0 in Hj.
        injection Hj as <-. simpl. exists j'.
        split; [by rewrite Hjobs, lookup_insert_eq|]. right.
        destruct Hcases as [(Hnew & Hh & Hone)|(Hzero & _)]; [|lia].
        split; [lia|]. split; [exact Hterm|].
        split; [by rewrite (status_history_snoc _ _ _ _ Hlog), Hh|].
        by apply Hdone.
    + revert Hinv. apply job_inv_ext.
      * by rewrite Hjobs, lookup_insert_ne.
      * by apply (status_history_other _ _ _ _ _ Hlog).
      * rewrite Hq. lia.
  - rewrite process_export_key_error by done. simpl.
    destruct (decide (jid0 = jid)) as [->|Hne].
    + destruct k as [|[|k]]; [| |done].
      * destruct Hinv as (_ & _ & Hzero).
        pose proof (tasks_of_lookup _ _ _ _ Hn). lia.
      * destruct Hinv as (j & Hj & _). congruence.
    + revert Hinv. apply job_inv_ext; [done|done|lia].
Qed.

Lemma job_inv_job_side jid k s s' :
  job_side s' = job_side s → job_inv jid k s → job_inv jid k s'.
Proof.
  unfold job_side. intros [= Hjobs Hlog Hq]. apply job_inv_ext.
  - by rewrite Hjobs.
  - unfold status_history. by rewrite Hlog.
  - by apply tasks_of_ext.
Qed.

Lemma job_inv_step jid ev s s' k :
  step ev s = Some s' →
  job_inv jid k s →
  job_inv jid (k + (if submits jid ev s then 1 else 0)) s'.
Proof.
  destruct ev as [w req|w n|jid0|w jid0].
  - intros [= <-]. apply job_inv_submit.
  - simpl. rewrite Nat.add_0_r.
    destruct (background_tasks s !! n) as [[jid0 req]|] eqn:Hn; [|done].
    intros [= <-]. by apply job_inv_task.
  - simpl. rewrite Nat.add_0_r. intros [= <-]. apply job_inv_job_side.
    destruct (get_export_job jid0 s) as [r s1] eqn:Hrun.
    by apply get_export_job_state in Hrun as ->.
  - simpl. rewrite Nat.add_0_r. intros [= <-]. apply job_inv_job_side.
    destruct (download_export w jid0 s) as [r s1] eqn:Hrun.
    apply (download_export_job_side w jid0 _ _ _ Hrun).
Qed.

Lemma job_inv_run jid evs : ∀ s s' k,
  run evs s = Some s' →
  job_inv jid k s →
  job_inv jid (k + times_submitted jid evs s) s'.
Proof.
  induction evs as [|ev evs IH]; intros s s' k; simpl.
  - intros [= <-]. by rewrite Nat.add_0_r.
  - destruct (step ev s) as [s1|] eqn:Hstep; [|done]. simpl.
    intros Hrun Hinv. rewrite Nat.add_assoc.
    eapply IH; [done|]. by apply job_inv_step.
Qed.

Lemma job_inv_initial jid : job_inv jid 0 initial_state.
Proof. done. Qed.

(** The invariant of a job whose id was generated once at most. *)
Lemma job_inv_reached jid evs s :
  run evs initial_state = Some s →
  (times_submitted jid evs initial_state ≤ 1)%nat →
  (export_jobs s !! jid = None ∧ tasks_of jid s = 0%nat)
  ∨ job_inv jid 1 s.
Proof.
  intros Hrun Hone.
  pose proof (job_inv_run jid evs _ _ 0%nat Hrun (job_inv_initial jid)) as Hinv.
  simpl in Hinv.
  destruct (times_submitted jid evs initial_state) as [|[|k]]; [| |lia].
  - left. by destruct Hinv as (? & _ & ?).
  - by right.
Qed.

(** C3: in every state the process reaches, a stored job whose id was
    generated by one submission only has taken the status values [pending]
    alone, with its task still queued, or [pending], [processing],
    [completed], or [pending], [processing], [failed], in that order, and
    the last one is its status; and its queued task, whenever it runs, ends
    normally and takes the job from [pending] through [processing] to
    [completed] or [failed]. *)
Theorem C3_status_sequence evs s jid :
  run evs initial_state = Some s →
  (times_submitted jid evs initial_state ≤ 1)%nat →
  (∀ j, export_jobs s !! jid = Some j →
     (status_history jid s = ["pending"] ∧ status j = "pending"
      ∧ jid ∈ queued s)
     ∨ (status_history jid s = ["pending"; "processing"; "completed"]
        ∧ status j = "completed")
     ∨ (status_history jid s = ["pending"; "processing"; "failed"]
        ∧ status j = "failed"))
  ∧ (∀ w n req, background_tasks s !! n = Some (jid, req) →
       ∃ s' final,
         process_export w jid req (set_background_tasks (delete n) s)
           = (inr tt, s')
         ∧ step (RunTask w n) s = Some s'
         ∧ status_history jid s = ["pending"]
         ∧ (final = "completed" ∨ final = "failed")
         ∧ status_history jid s' = ["pending"; "processing"; final]
         ∧ (status <$> export_jobs s' !! jid) = Some final).
Proof.
  intros Hrun Hone.
  destruct (job_inv_reached jid evs s Hrun Hone)
    as [[Hnone Hzero]|(j & Hj & Hcases)].
  { split; [intros j Hj; congruence|].
    intros w n req Hn. pose proof (tasks_of_lookup _ _ _ _ Hn). lia. }
  split.
  - intros j' Hj'. rewrite Hj in Hj'. injection Hj' as <-.
    destruct Hcases as [((Hst & _) & Hh & Hone')|(_ & Hterm & Hh & _)].
    + left. split; [done|]. split; [done|]. apply tasks_of_queued. lia.
    + right. destruct Hterm as [Hst|Hst]; rewrite Hst in Hh; [left|right]; done.
  - intros w n req Hn.
    destruct Hcases as [(Hnew & Hh & Hone')|(Hzero & _)].
    2: { pose proof (tasks_of_lookup _ _ _ _ Hn). lia. }
    assert (Hstep : step (RunTask w n) s
              = Some (process_export w jid req
                        (set_background_tasks (delete n) s)).2)
      by (simpl; by rewrite Hn).
    assert (Hinv : job_inv jid 1 s) by (exists j; split; [done|by left]).
    pose proof (job_inv_step jid _ _ _ 1%nat Hstep Hinv) as Hinv'.
    simpl in Hinv'.
    destruct (process_export_run w jid req j
                (set_background_tasks (delete n) s) Hj)
      as (r & s2 & _ & Hexp).
    rewrite Hexp in Hinv', Hstep. simpl in Hinv', Hstep.
    set (s' := outcome_state _ _ _ _ _ _) in *.
    pose proof (outcome_state_job w jid j (set_background_tasks (delete n) s)
                  r s2) as Hj'.
    fold s' in Hj'.
    destruct Hinv' as (j' & Hj'' & Hcases'). rewrite Hj' in Hj''.
    injection Hj'' as Hj''.
    destruct Hcases' as [((Hst & _) & _)|(_ & Hterm & Hh' & _)].
    { exfalso. subst j'. by destruct r. }
    eexists s', _. split; [done|]. split; [done|].
    split; [done|]. split; [exact Hterm|]. split; [exact Hh'|].
    by rewrite Hj', Hj''.
Qed.

Lemma C3_status_sequence_witness :
  let w := quiet_world [example_doc 3 7 2; example_doc 4 7 3] in
  let evs :=
    [ Submit frozen_clock_world
        (mk_request None (Some [3; 5; 9]) "csv" false None None);
      Submit frozen_clock_world
        (mk_request (Some 7) None "pdf" true None None);
      Submit w (mk_request (Some 7) None "csv" true None None);
      RunTask (disk_full_world [example_doc 3 7 2]) 0;
      GetJob "export_20240301_093000_000000";
      RunTask w 1;
      Download w "export_20240301_093000_000004" ] in
  let s := default initial_state (run evs initial_state) in
  let jid := "export_20240301_093000_000004" in
  times_submitted "export_20240301_093000_000000" evs initial_state = 2%nat
  ∧ status_history jid s = ["pending"; "processing"; "completed"]
  ∧ (∀ j, export_jobs s !! jid = Some j →
       (status_history jid s = ["pending"] ∧ status j = "pending"
        ∧ jid ∈ queued s)
       ∨ (status_history jid s = ["pending"; "processing"; "completed"]
          ∧ status j = "completed")
       ∨ (status_history jid s = ["pending"; "processing"; "failed"]
          ∧ status j = "failed")).
Proof.
  intros w evs s jid. split_and!; [by vm_compute..|].
  refine (proj1 (C3_status_sequence evs s jid _ _)); [by vm_compute|].
  vm_compute. lia.
Defined.

(** C3, as stated, fails: two submissions in the same microsecond get the
    same id, the second record replaces the first, and both tasks run on
    it: the status stored under that id goes back from [completed] to
    [processing]. *)
Lemma C3_status_regresses_on_id_collision :
  let w := frozen_clock_world in
  let evs :=
    [ Submit w (mk_request (Some 7) None "csv" true None None);
      Submit w (mk_request None None "json" false None None);
      RunTask w 0; RunTask w 0 ] in
  let jid := "export_20240301_093000_000000" in
  let s := default initial_state (run evs initial_state) in
  is_Some (run evs initial_state)
  ∧ times_submitted jid evs initial_state = 2%nat
  ∧ (format <$> export_jobs s !! jid) = Some "json"
  ∧ status_history jid s
      = [ "pending"; "pending"; "processing"; "completed"; "processing";
          "completed" ].
Proof. split_and!; [vm_compute; by eexists|by vm_compute..]. Qed.

(** C9: in every state the process reaches, a job record whose id was
    generated by one submission only has a [download_url] exactly when its
    status is [completed], an [error_message] exactly when its status is
    [failed], and [total_records] 0 unless its status is [completed]; the
    same holds of the record once its queued task has marked it
    [processing]. *)
Theorem C9_job_invariant evs s jid :
  run evs initial_state = Some s →
  (times_submitted jid evs initial_state ≤ 1)%nat →
  (∀ j, export_jobs s !! jid = Some j → job_invariant j)
  ∧ (∀ n req, background_tasks s !! n = Some (jid, req) →
       ∃ sp jp,
         mark_processing jid s = (inr tt, sp)
         ∧ export_jobs sp !! jid = Some jp
         ∧ status jp = "processing"
         ∧ job_invariant jp).
Proof.
  intros Hrun Hone.
  destruct (job_inv_reached jid evs s Hrun Hone)
    as [[Hnone Hzero]|(j & Hj & Hcases)].
  { split; [intros j Hj; congruence|].
    intros n req Hn. pose proof (tasks_of_lookup _ _ _ _ Hn). lia. }
  split.
  - intros j' Hj'. rewrite Hj in Hj'. injection Hj' as <-.
    destruct Hcases as [(Hnew & _)|(_ & _ & _ & Hinv)]; [|done].
    by apply job_invariant_pending.
  - intros n req Hn.
    destruct Hcases as [((_ & _ & Hurl & Hrec & Herr) & _)|(Hzero & _)].
    2: { pose proof (tasks_of_lookup _ _ _ _ Hn). lia. }
    eexists _, _. split; [by apply mark_processing_run|].
    split; [apply lookup_insert_eq|]. split; [done|].
    unfold job_invariant. simpl. rewrite Hurl, Herr.
    split_and!; [| |done]; (split; [by intros [? ?]|done]).
Qed.

Lemma C9_job_invariant_witness :
  let w := quiet_world [example_doc 1 7 5] in
  let evs :=
    [ Submit frozen_clock_world
        (mk_request (Some 7) None "csv" true None None);
      Submit frozen_clock_world
        (mk_request None None "xlsx" true None None);
      Submit w (mk_request (Some 7) None "csv" true None None);
      RunTask (disk_full_world [example_doc 1 7 5]) 2;
      RunTask w 0 ] in
  let s := default initial_state (run evs initial_state) in
  let jid := "export_20240301_093000_000004" in
  times_submitted "export_20240301_093000_000000" evs initial_state = 2%nat
  ∧ (status <$> export_jobs s !! jid) = Some "failed"
  ∧ (∀ j, export_jobs s !! jid = Some j → job_invariant j).
Proof.
  intros w evs s jid. split_and!; [by vm_compute..|].
  refine (proj1 (C9_job_invariant evs s jid _ _)); [by vm_compute|].
  vm_compute. lia.
Defined.

(** C9, as stated, fails: two submissions in the same microsecond share one
    record; the first task completes it, the second fails on it, and the
    failed record keeps the [download_url] and the [total_records] of the
    completion. *)
Lemma C9_failed_record_keeps_download_url :
  let w := frozen_clock_world in
  let evs :=
    [ Submit w (mk_request (Some 7) None "csv" true None None);
      Submit w (mk_request (Some 7) None "csv" true None None);
      RunTask (quiet_world [example_doc 1 7 5; example_doc 2 7 6]) 0;
      RunTask db_down_world 0 ] in
  let jid := "export_20240301_093000_000000" in
  let s := default initial_state (run evs initial_state) in
  is_Some (run evs initial_state)
  ∧ times_submitted jid evs initial_state = 2%nat
  ∧ (status <$> export_jobs s !! jid) = Some "failed"
  ∧ (download_url <$> export_jobs s !! jid)
      = Some (Some "/api/export/download/export_20240301_093000_000000")
  ∧ (total_records <$> export_jobs s !! jid) = Some 2
  ∧ (error_message <$> export_jobs s !! jid)
      = Some (Some "connection refused").
Proof. split_and!; [vm_compute; by eexists|by vm_compute..]. Qed.

(** ** Download *)

Lemma media_types_supported :
  media_types !! "csv" = Some "text/csv"
  ∧ media_types !! "json" = Some "application/json"
  ∧ media_types !! "xlsx"
      = Some "application/vnd.openxmlformats-officedocument.spreadsheetml.sheet".
Proof. by vm_compute. Qed.

(** C4: [download_export] answers 404 when the job id is unknown, 400 when
    the job is there and its status is not [completed], 404 when the job is
    completed and nothing exists at its output path, and otherwise - and
    only then - a response for that path whose media type is looked up from
    the format: [text/csv], [application/json] or the spreadsheet type. *)
Theorem C4_download_outcomes w jid s :
  (export_jobs s !! jid = None →
     (download_export w jid s).1 = inl (mk_http 404 "Export job not found"))
  ∧ (∀ job, export_jobs s !! jid = Some job → status job ≠ "completed" →
       ∃ d, (download_export w jid s).1 = inl (mk_http 400 d))
  ∧ (∀ job, export_jobs s !! jid = Some job → status job = "completed" →
       path_exists s (export_path w jid (format job)) = false →
       (download_export w jid s).1 = inl (mk_http 404 "Export file not found"))
  ∧ (∀ job, export_jobs s !! jid = Some job → status job = "completed" →
       path_exists s (export_path w jid (format job)) = true →
       ∃ resp,
         (download_export w jid s).1 = inr resp
         ∧ resp_path resp = export_path w jid (format job)
         ∧ media_type resp
             = default "application/octet-stream" (media_types !! format job))
  ∧ (∀ resp, (download_export w jid s).1 = inr resp →
       ∃ job, export_jobs s !! jid = Some job ∧ status job = "completed"
              ∧ path_exists s (export_path w jid (format job)) = true)
  ∧ (media_types !! "csv" = Some "text/csv"
     ∧ media_types !! "json" = Some "application/json"
     ∧ media_types !! "xlsx"
         = Some "application/vnd.openxmlformats-officedocument.spreadsheetml.sheet").
Proof.
  unfold download_export. split_and!.
  - by intros ->.
  - intros job -> Hst. rewrite decide_True by done. by eexists.
  - intros job -> Hst Hex. rewrite decide_False by (by intros []).
    by rewrite Hex.
  - intros job -> Hst Hex. rewrite decide_False by (by intros []).
    rewrite Hex. simpl. by eexists.
  - intros resp. destruct (export_jobs s !! jid) as [job|]; [|done].
    destruct (decide (status job ≠ "completed")) as [|Hst]; [done|].
    destruct (path_exists s _) eqn:Hex; [|done]. intros _.
    exists job. split_and!; [done| |done].
    by destruct (decide (status job = "completed")).
  - apply media_types_supported.
  - apply media_types_supported.
  - apply media_types_supported.
Qed.

Lemma C4_download_outcomes_witness :
  let w := quiet_world [example_doc 1 7 5] in
  let req := mk_request (Some 7) None "csv" true None None in
  let jid := "export_20240301_093000_000000" in
  let s1 := (export_documents w req initial_state).2 in
  let s2 := (process_export w jid req s1).2 in
  (download_export w "no_such_job" s2).1
    = inl (mk_http 404 "Export job not found")
  ∧ (∃ d, (download_export w jid s1).1 = inl (mk_http 400 d))
  ∧ (∃ resp, (download_export w jid s2).1 = inr resp
             ∧ resp_path resp = "./exports/export_20240301_093000_000000.csv"
             ∧ media_type resp = "text/csv").
Proof.
  intros w req jid s1 s2. split_and!.
  - apply (proj1 (C4_download_outcomes w "no_such_job" s2)). by vm_compute.
  - apply (proj1 (proj2 (C4_download_outcomes w jid s1))
             (mk_job jid "pending" "csv" (example_clock 1) None None 0 None));
      by vm_compute.
  - apply (proj1 (proj2 (proj2 (proj2 (C4_download_outcomes w jid s2))))
             (mk_job jid "completed" "csv" (example_clock 1)
                (Some (example_clock 2))
                (Some "/api/export/download/export_20240301_093000_000000")
                1 None));
      by vm_compute.
Defined.

(** ** Files left by a job *)

Lemma off_path_lookup p s s' q :
  unchanged (off_path p) s s' → q ≠ p → files s' !! q = files s !! q.
Proof.
  unfold unchanged, off_path. intros Hoff Hne.
  by rewrite <- (lookup_delete_ne (files s') p q),
    <- (lookup_delete_ne (files s) p q), Hoff.
Qed.

Lemma outcome_state_files w jid j s r s2 :
  files (outcome_state w jid j s r s2) = files s2.
Proof. by destruct r. Qed.

(** C6, as amended: a job touches no path but its own
    [{job_id}.{format}]; when it fails in the query, in the directory
    setup, in opening the file, or for want of the spreadsheet libraries,
    every file is as it was before, so nothing new is at that path; when
    it completes in one of the three formats, it has written exactly one
    file, finished, at that path. *)
Theorem C6_files_left_by_a_job w jid req j s :
  export_jobs s !! jid = Some j →
  ∃ s',
    process_export w jid req s = (inr tt, s')
    ∧ (∀ q, q ≠ export_path w jid (req_format req) →
         files s' !! q = files s !! q)
    ∧ (is_Some (db_fault w) ∨ is_Some (mkdir_fault w)
       ∨ is_Some (open_fault w)
       ∨ (req_format req = "xlsx" ∧ spreadsheet_libs w = false) →
       files s' = files s)
    ∧ (req_format req ∈ ["csv"; "json"; "xlsx"] →
       (status <$> export_jobs s' !! jid) = Some "completed" →
       ∃ c, files s' = <[export_path w jid (req_format req) := c]> (files s)
            ∧ finished c).
Proof.
  intros Hj.
  destruct (process_export_run w jid req j s Hj) as (r & s2 & Hio & Hrun).
  eexists. split; [exact Hrun|]. rewrite outcome_state_files. split_and!.
  - intros q Hq.
    by rewrite (off_path_lookup _ _ _ q (produce_file_off_path _ _ _ _ _ _ Hio)).
  - intros Hfault.
    apply (produce_file_early_fault w jid req Hfault _ _ _ Hio).
  - intros Hfmt. rewrite outcome_state_job. destruct r as [e|rows]; [done|].
    intros _. apply produce_file_ok_inv in Hio as [_ Hw].
    by apply write_by_format_ok in Hw.
Qed.

Lemma C6_files_left_by_a_job_witness :
  let w := quiet_world [example_doc 1 7 5] in
  let req := mk_request (Some 7) None "csv" true None None in
  let jid := "export_20240301_093000_000000" in
  let s1 := (export_documents w req initial_state).2 in
  ∃ s', process_export w jid req s1 = (inr tt, s')
        ∧ ∃ c, files s' = <[export_path w jid "csv" := c]> (files s1)
               ∧ finished c.
Proof.
  intros w req jid s1.
  destruct (C6_files_left_by_a_job w jid req
              (mk_job jid "pending" "csv" (example_clock 1) None None 0 None)
              s1 eq_refl) as (s' & Hrun & _ & _ & Hdone).
  exists s'. split; [exact Hrun|]. apply Hdone.
  - by left.
  - vm_compute in Hrun. injection Hrun as <-. by vm_compute.
Defined.

(** C6, as stated, fails: the second write fails, the job ends [failed],
    and the file at the job's path, which was not there before, is left
    with the header line only. *)
Lemma C6_partial_file_left_on_failure :
  let w := disk_full_world [example_doc 1 7 5] in
  let req := mk_request (Some 7) None "csv" true None None in
  let jid := "export_20240301_093000_000000" in
  let s1 := (export_documents w req initial_state).2 in
  let s2 := (process_export w jid req s1).2 in
  (status <$> export_jobs s2 !! jid) = Some "failed"
  ∧ files s1 !! export_path w jid "csv" = None
  ∧ files s2 !! export_path w jid "csv"
      = Some (Truncated
                (CsvFile [csv_headers req; csv_data req (example_doc 1 7 5)])).
Proof. by vm_compute. Qed.

(** C7: an [xlsx] export without the spreadsheet libraries fails.  The job
    ends [failed] with the error recorded, no file is created or changed,
    in any format, and when the query and the directory setup went through
    the error is the one the [xlsx] branch raises for the missing
    libraries. *)
Theorem C7_xlsx_without_library_fails w jid req j s :
  export_jobs s !! jid = Some j →
  req_format req = "xlsx" →
  spreadsheet_libs w = false →
  ∃ s' e,
    process_export w jid req s = (inr tt, s')
    ∧ export_jobs s' !! jid = Some (failed_job j e)
    ∧ files s' = files s
    ∧ (db_fault w = None → mkdir_fault w = None →
       e = mk_exn PlainException "pandas and openpyxl required for XLSX export").
Proof.
  intros Hj Hfmt Hlib.
  destruct (process_export_run w jid req j s Hj) as (r & s2 & Hio & Hrun).
  destruct (produce_file_xlsx_no_library w jid req (processing_state jid j s)
              Hfmt Hlib) as (e & s2' & Hio' & Hfiles & He).
  rewrite Hio in Hio'. injection Hio' as -> ->.
  eexists _, e. split; [exact Hrun|].
  rewrite outcome_state_job, outcome_state_files. done.
Qed.

Lemma C7_xlsx_without_library_fails_witness :
  let w := no_pandas_world [example_doc 1 7 5] in
  let req := mk_request None None "xlsx" true None None in
  let jid := "export_20240301_093000_000000" in
  let s1 := (export_documents w req initial_state).2 in
  ∃ s' e,
    process_export w jid req s1 = (inr tt, s')
    ∧ export_jobs s' !! jid
        = Some (failed_job
                  (mk_job jid "pending" "xlsx" (example_clock 1)
                     None None 0 None) e)
    ∧ files s' = files s1
    ∧ (db_fault w = None → mkdir_fault w = None →
       e = mk_exn PlainException "pandas and openpyxl required for XLSX export").
Proof.
  intros w req jid s1.
  apply (C7_xlsx_without_library_fails w jid req
           (mk_job jid "pending" "xlsx" (example_clock 1) None None 0 None) s1);
    reflexivity.
Defined.

(** ** What an export contains *)

Lemma csv_document_ids_written req rows :
  csv_document_ids (CsvFile (csv_headers req :: (csv_data req <$> rows)))
    = Some (d_id <$> rows).
Proof.
  simpl. induction rows as [|r rows IH]; [done|].
  rewrite !fmap_cons. simpl. by rewrite IH.
Qed.

Lemma json_document_ids_written req rows t :
  json_document_ids (JsonFile (json_export req rows t)) = Some (d_id <$> rows).
Proof.
  unfold json_document_ids, json_export, dict_get.
  change (assoc "documents" _) with (Some (PList (json_doc req <$> rows))).
  induction rows as [|r rows IH]; [done|].
  rewrite !fmap_cons. simpl. simpl in IH. by rewrite IH.
Qed.

Lemma json_total_records_written req rows t :
  json_total_records (JsonFile (json_export req rows t))
    = Some (Z.of_nat (length rows)).
Proof.
  unfold json_total_records, json_export, dict_get.
  change (assoc "total_records" _)
    with (Some (PInt (Z.of_nat (length (json_doc req <$> rows))))).
  simpl. by rewrite length_fmap.
Qed.

(** C8: when an export completes, [total_records] on the job is the number
    of rows the query returned; a CSV file holds, after its header, one
    line per row with the ids of the rows in the order of the query, and a
    JSON file holds the same ids and the same count in [total_records]. *)
Theorem C8_export_matches_query w jid req j s :
  export_jobs s !! jid = Some j →
  ∃ s' j',
    process_export w jid req s = (inr tt, s')
    ∧ export_jobs s' !! jid = Some j'
    ∧ (status j' = "completed" →
       let rows := Sql.execute (table w) (build_query req) in
       total_records j' = Z.of_nat (length rows)
       ∧ (req_format req = "csv" →
          ∃ c, files s' !! export_path w jid "csv" = Some c
               ∧ csv_document_ids c = Some (d_id <$> rows))
       ∧ (req_format req = "json" →
          ∃ c, files s' !! export_path w jid "json" = Some c
               ∧ json_document_ids c = Some (d_id <$> rows)
               ∧ json_total_records c = Some (Z.of_nat (length rows)))).
Proof.
  intros Hj.
  destruct (process_export_run w jid req j s Hj) as (r & s2 & Hio & Hrun).
  eexists _, _. split; [exact Hrun|]. split; [apply outcome_state_job|].
  rewrite outcome_state_files. destruct r as [e|rows]; [done|]. intros _.
  apply produce_file_ok_inv in Hio as [-> Hw]. simpl. split_and!; [done| |].
  - intros Hfmt. unfold write_by_format in Hw. rewrite Hfmt in Hw. simpl in Hw.
    apply write_csv_ok in Hw. rewrite Hw, lookup_insert_eq.
    eexists. split; [done|]. apply csv_document_ids_written.
  - intros Hfmt. unfold write_by_format in Hw. rewrite Hfmt in Hw. simpl in Hw.
    apply write_json_ok in Hw as [t Hw]. rewrite Hw, lookup_insert_eq.
    eexists. split; [done|].
    split; [apply json_document_ids_written|apply json_total_records_written].
Qed.

Lemma C8_export_matches_query_witness :
  let w := quiet_world [example_doc 3 7 2; example_doc 4 8 3; example_doc 9 7 1] in
  let req := mk_request None (Some [3; 5; 9]) "json" true None None in
  let jid := "export_20240301_093000_000000" in
  let s1 := (export_documents w req initial_state).2 in
  ∃ s' j',
    process_export w jid req s1 = (inr tt, s')
    ∧ export_jobs s' !! jid = Some j'
    ∧ total_records j' = 2
    ∧ ∃ c, files s' !! export_path w jid "json" = Some c
           ∧ json_document_ids c = Some [3; 9]
           ∧ json_total_records c = Some 2.
Proof.
  intros w req jid s1.
  destruct (C8_export_matches_query w jid req
              (mk_job jid "pending" "json" (example_clock 1) None None 0 None)
              s1 eq_refl) as (s' & j' & Hrun & Hj' & Hdone).
  exists s', j'. split; [exact Hrun|]. split; [exact Hj'|].
  assert (Hst : status j' = "completed").
  { vm_compute in Hrun. injection Hrun as <-.
    vm_compute in Hj'. by injection Hj' as <-. }
  destruct (Hdone Hst) as (Hn & _ & Hjson). split; [exact Hn|].
  exact (Hjson eq_refl).
Defined.

(** * Further properties of the export endpoints *)

(** X1: a submission always succeeds, and the job it returns is the one
    [get_export_job] answers with under the returned id; the answers for
    every other id are as before, and an id that is not stored is answered
    with 404 [Export job not found]. *)
Theorem submitted_job_can_be_read_back w req s :
  ∃ job s1,
    export_documents w req s = (inr job, s1)
    ∧ get_export_job (job_id job) s1 = (inr job, s1)
    ∧ (∀ jid, jid ≠ job_id job →
         (get_export_job jid s1).1 = (get_export_job jid s).1)
    ∧ (∀ jid, export_jobs s1 !! jid = None →
         get_export_job jid s1
           = (inl (mk_http 404 "Export job not found"), s1)).
Proof.
  eexists _, _. split; [apply export_documents_run|]. simpl.
  unfold get_export_job. simpl. split_and!.
  - by rewrite lookup_insert_eq.
  - intros jid Hne. rewrite lookup_insert_ne by done. by destruct (_ !! _).
  - by intros jid ->.
Qed.

(** X2: run for a job id that is not in [export_jobs], the background
    task does not record a failure: the handler of its [except] clause
    looks the job up again, so the [KeyError] leaves the task, nothing is
    stored or written, and the id stays unknown to [download_export]. *)
Theorem process_export_unknown_job w jid req s :
  export_jobs s !! jid = None →
  process_export w jid req s = (inl (key_error jid), s)
  ∧ ∀ w', (download_export w' jid s).1
          = inl (mk_http 404 "Export job not found").
Proof.
  intros Hj. split; [by apply process_export_key_error|].
  intros w'. unfold download_export. by rewrite Hj.
Qed.

(** X3: run for a stored job, the background task ends without an
    exception whatever the database and the disk do; it leaves the job its
    id, format and creation time, every other job as it was, the set of
    stored ids and the task queue unchanged. *)
Theorem process_export_frame w jid req j s :
  export_jobs s !! jid = Some j →
  ∃ s' j',
    process_export w jid req s = (inr tt, s')
    ∧ export_jobs s' !! jid = Some j'
    ∧ job_id j' = job_id j ∧ format j' = format j
    ∧ created_at j' = created_at j
    ∧ (∀ jid', jid' ≠ jid → export_jobs s' !! jid' = export_jobs s !! jid')
    ∧ dom (export_jobs s') = dom (export_jobs s)
    ∧ background_tasks s' = background_tasks s.
Proof.
  intros Hj.
  destruct (process_export_run w jid req j s Hj) as (r & s2 & _ & Hrun).
  eexists _, _. split; [exact Hrun|]. split; [apply outcome_state_job|].
  destruct r as [e|rows]; simpl; split_and!; try done.
  - intros jid' Hne. by rewrite lookup_insert_ne.
  - by apply dom_insert_lookup_L.
  - intros jid' Hne. by rewrite lookup_insert_ne.
  - by apply dom_insert_lookup_L.
Qed.

Lemma string_length_app (s1 s2 : string) :
  String.length (s1 +:+ s2) = (String.length s1 + String.length s2)%nat.
Proof. induction s1 as [|c s1 IH]; simpl; [done|]. by rewrite IH. Qed.

Lemma export_path_not_dir w jid fmt :
  export_path w jid fmt ≠ export_dir (settings w).
Proof.
  unfold export_path, path_join. intros Heq.
  apply (f_equal String.length) in Heq.
  rewrite !string_length_app in Heq. simpl in Heq. lia.
Qed.

Lemma write_by_format_unsupported w p req rows s :
  req_format req ∉ ["csv"; "json"; "xlsx"] →
  write_by_format w p req rows s = (inr tt, s).
Proof.
  rewrite !not_elem_of_cons. intros (? & ? & ? & _).
  unfold write_by_format. by rewrite !decide_False by done.
Qed.

(** X4: for a format that is none of csv, json and xlsx, with the
    database and the directory available, the job is marked completed
    with the number of matching rows although no file was written; the
    download of that completed job is then answered with 404
    [Export file not found] unless a file of that name was already there. *)
Theorem unsupported_format_completes_without_file w jid req j s :
  export_jobs s !! jid = Some j →
  format j = req_format req →
  req_format req ∉ ["csv"; "json"; "xlsx"] →
  db_fault w = None → mkdir_fault w = None →
  ∃ s' t,
    process_export w jid req s = (inr tt, s')
    ∧ export_jobs s' !! jid
        = Some (completed_job jid j t
                  (length (Sql.execute (table w) (build_query req))))
    ∧ files s' = files s
    ∧ (path_exists s (export_path w jid (req_format req)) = false →
       (download_export w jid s').1
         = inl (mk_http 404 "Export file not found")).
Proof.
  intros Hj Hfmt Hun Hdb Hmk.
  destruct (process_export_run w jid req j s Hj) as (r & s2 & Hio & Hrun).
  unfold produce_file in Hio. rewrite bind_run in Hio.
  unfold db_execute in Hio. rewrite Hdb in Hio. simpl in Hio.
  rewrite bind_run in Hio. unfold write_export_file in Hio.
  rewrite bind_run in Hio. unfold mkdir in Hio. rewrite Hmk in Hio.
  rewrite write_by_format_unsupported in Hio by done.
  injection Hio as <- <-.
  eexists _, _. split; [exact Hrun|].
  split; [rewrite outcome_state_job; reflexivity|].
  split; [done|]. intros Hex.
  unfold download_export. rewrite outcome_state_job. simpl.
  rewrite Hfmt. unfold path_exists in *. simpl.
  apply orb_false_iff in Hex as [Hf Hd]. rewrite Hf. simpl.
  rewrite bool_decide_eq_false_2; [done|].
  apply bool_decide_eq_false in Hd.
  rewrite elem_of_union, elem_of_singleton.
  intros [Heq|Hin]; [by apply export_path_not_dir in Heq|done].
Qed.

Lemma media_type_of_supported fmt :
  fmt ∈ ["csv"; "json"; "xlsx"] →
  ∃ m, media_types !! fmt = Some m ∧ m ≠ "application/octet-stream".
Proof.
  rewrite !elem_of_cons, elem_of_nil.
  intros [->|[->|[->|[]]]]; eexists; (split; [by vm_compute|done]).
Qed.

(** X5: once the task has completed a job of a supported format, its
    download succeeds (under any environment with the same settings): the
    response carries the path of the file the task wrote, which is on
    disk, the media type of the format (never the fallback) and the file
    name [ediscovery_export_<day of the download>.<format>]. *)
Theorem completed_job_can_be_downloaded w w' jid req j s s' :
  export_jobs s !! jid = Some j →
  format j = req_format req →
  req_format req ∈ ["csv"; "json"; "xlsx"] →
  process_export w jid req s = (inr tt, s') →
  (status <$> export_jobs s' !! jid) = Some "completed" →
  settings w' = settings w →
  ∃ resp m,
    download_export w' jid s'
      = (inr resp, set_ticks S s')
    ∧ resp_path resp = export_path w jid (req_format req)
    ∧ is_Some (files s' !! resp_path resp)
    ∧ media_types !! req_format req = Some m
    ∧ media_type resp = m
    ∧ m ≠ "application/octet-stream"
    ∧ resp_filename resp
        = "ediscovery_export_" +:+ strftime_day (utcnow w' (ticks s'))
            +:+ "." +:+ req_format req.
Proof.
  intros Hj Hfmt Hsup Hrun Hdone Hset.
  destruct (process_export_run w jid req j s Hj) as (r & s2 & Hio & Hrun').
  rewrite Hrun in Hrun'. injection Hrun' as ->.
  rewrite outcome_state_job in Hdone.
  destruct r as [e|rows]; [done|]. clear Hdone.
  apply produce_file_ok_inv in Hio as [-> Hw].
  apply write_by_format_ok in Hw as (c & Hfiles & _); [|done].
  destruct (media_type_of_supported _ Hsup) as (m & Hm & Hne).
  assert (Hp : export_path w' jid (req_format req)
               = export_path w jid (req_format req))
    by (unfold export_path; by rewrite Hset).
  unfold download_export. rewrite outcome_state_job. simpl.
  rewrite Hfmt, Hp. unfold path_exists. simpl.
  rewrite Hfiles, lookup_insert_eq. simpl.
  eexists _, m. split; [reflexivity|]. simpl.
  rewrite lookup_insert_eq, Hm. by split_and!.
Qed.

(** X6: when the query fails, or the query answers and the export
    directory cannot be created, the job becomes failed with the text of
    that exception, and nothing was written: files, directories, the
    write counter and the clock are as before. *)
Theorem first_failure_is_recorded w jid req j s e :
  export_jobs s !! jid = Some j →
  db_fault w = Some e ∨ (db_fault w = None ∧ mkdir_fault w = Some e) →
  ∃ s',
    process_export w jid req s = (inr tt, s')
    ∧ export_jobs s' !! jid = Some (failed_job j e)
    ∧ files s' = files s ∧ dirs s' = dirs s ∧ writes s' = writes s
    ∧ ticks s' = ticks s.
Proof.
  intros Hj Hfault.
  destruct (process_export_run w jid req j s Hj) as (r & s2 & Hio & Hrun).
  assert (r = inl e ∧ s2 = processing_state jid j s) as [-> ->].
  { unfold produce_file in Hio. rewrite bind_run in Hio.
    unfold db_execute in Hio. destruct Hfault as [Hdb|[Hdb Hmk]].
    - rewrite Hdb in Hio. by injection Hio as <- <-.
    - rewrite Hdb in Hio. simpl in Hio. rewrite bind_run in Hio.
      unfold write_export_file in Hio. rewrite bind_run in Hio.
      unfold mkdir in Hio. rewrite Hmk in Hio. by injection Hio as <- <-. }
  eexists. split; [exact Hrun|]. split; [apply outcome_state_job|done].
Qed.

(** ** What a CSV export leaves on disk *)

Section csv_prefix.

Context (w : World) (p : string).

Lemma for_each_writerow_prefix (f : Row → list cell) rows :
  ∀ s r s' ls,
    files s !! p = Some (CsvFile ls) →
    for_each rows (λ row, writerow w p (f row)) s = (r, s') →
    (r = inr tt ∧ files s' = <[p := CsvFile (ls ++ (f <$> rows))]> (files s))
    ∨ (∃ e k,
         r = inl e ∧ (k < length rows)%nat
         ∧ files s'
             = <[p := Truncated (CsvFile (ls ++ take (S k) (f <$> rows)))]>
                 (files s)).
Proof.
  induction rows as [|row rows IH]; intros s r s' ls Hp; simpl.
  - intros [= <- <-]. left. rewrite app_nil_r.
    split; [done|by rewrite insert_id].
  - rewrite bind_run. unfold writerow at 1, write.
    destruct (write_fault w (writes s)) as [e|].
    + intros [= <- <-]. right. exists e, 0%nat. simpl.
      split; [done|]. split; [lia|].
      by rewrite (alter_as_insert _ _ _ _ Hp).
    + intros Hloop. eapply (IH _ _ _ (ls ++ [f row])) in Hloop.
      * simpl in Hloop. rewrite (alter_as_insert _ _ _ _ Hp) in Hloop.
        rewrite !insert_insert_eq, <- !app_assoc in Hloop.
        destruct Hloop as [[-> Hfiles]|(e & k & -> & Hk & Hfiles)].
        -- by left.
        -- right. exists e, (S k). split; [done|]. split; [lia|].
           rewrite Hfiles, insert_insert_eq, <- app_assoc. reflexivity.
      * simpl. by rewrite lookup_alter_eq, Hp.
Qed.

Lemma write_csv_prefix req rows s r s' :
  open_fault w = None →
  write_csv w p req rows s = (r, s') →
  (r = inr tt ∧ files s' = <[p := CsvFile (csv_lines req rows)]> (files s))
  ∨ (∃ e ls,
       r = inl e ∧ ls ≠ [] ∧ ls `prefix_of` csv_lines req rows
       ∧ files s' = <[p := Truncated (CsvFile ls)]> (files s)).
Proof.
  intros Hopen. unfold write_csv. rewrite bind_run. unfold open_w at 1.
  rewrite Hopen. rewrite bind_run. unfold writerow at 1, write. simpl.
  destruct (write_fault w (writes s)) as [e|].
  - intros [= <- <-]. right. exists e, [csv_headers req]. simpl.
    split; [done|]. split; [done|]. split.
    + apply (prefix_cons (csv_headers req)), prefix_nil.
    + rewrite (alter_as_insert _ _ _ EmptyFile) by apply lookup_insert_eq.
      by rewrite insert_insert_eq.
  - intros Hloop.
    eapply (for_each_writerow_prefix _ _ _ _ _ [csv_headers req]) in Hloop.
    + simpl in Hloop.
      rewrite (alter_as_insert _ _ _ EmptyFile) in Hloop
        by apply lookup_insert_eq.
      rewrite !insert_insert_eq in Hloop.
      destruct Hloop as [[-> Hfiles]|(e & k & -> & Hk & Hfiles)].
      * by left.
      * right. eexists e, _. split; [done|].
        split; [|split; [|rewrite Hfiles, insert_insert_eq; reflexivity]].
        -- done.
        -- apply (prefix_cons (csv_headers req)), prefix_take.
    + simpl. by rewrite lookup_alter_eq, lookup_insert_eq.
Qed.

End csv_prefix.

(** X7: when the CSV file can be opened, what the task leaves at the
    export path is a beginning of the export: either the whole export
    (header line, then one line per matching row, in the order of the
    query), and then the job is completed; or a file cut short within its
    first lines, possibly in the middle of a line, and then the job is
    failed.  Nothing else is ever in the file. *)
Theorem csv_export_leaves_a_prefix w jid req j s :
  export_jobs s !! jid = Some j →
  req_format req = "csv" →
  db_fault w = None → mkdir_fault w = None → open_fault w = None →
  ∃ s' c,
    process_export w jid req s = (inr tt, s')
    ∧ files s' = <[export_path w jid "csv" := c]> (files s)
    ∧ ((c = CsvFile (csv_lines req (Sql.execute (table w) (build_query req)))
        ∧ (status <$> export_jobs s' !! jid) = Some "completed")
       ∨ (∃ ls,
            c = Truncated (CsvFile ls) ∧ ls ≠ []
            ∧ ls `prefix_of`
                csv_lines req (Sql.execute (table w) (build_query req))
            ∧ (status <$> export_jobs s' !! jid) = Some "failed")).
Proof.
  intros Hj Hfmt Hdb Hmk Hopen.
  destruct (process_export_run w jid req j s Hj) as (r & s2 & Hio & Hrun).
  unfold produce_file in Hio. rewrite bind_run in Hio.
  unfold db_execute in Hio. rewrite Hdb in Hio. simpl in Hio.
  rewrite bind_run in Hio. unfold write_export_file in Hio.
  rewrite bind_run in Hio. unfold mkdir in Hio. rewrite Hmk in Hio.
  unfold write_by_format in Hio. rewrite Hfmt in Hio. simpl in Hio.
  destruct (write_csv _ _ _ _ _) as [r' s3] eqn:Hw.
  apply write_csv_prefix in Hw; [|done]. simpl in Hw.
  assert (Hs : files s2 = files s3) by (destruct r' as [e|[]]; by injection Hio as <- <-).
  destruct Hw as [[-> Hfiles]|(e & ls & -> & Hne & Hpre & Hfiles)];
    injection Hio as <- <-.
  - eexists _, _. split; [exact Hrun|].
    rewrite outcome_state_files, outcome_state_job.
    split; [exact Hfiles|]. by left.
  - eexists _, _. split; [exact Hrun|].
    rewrite outcome_state_files, outcome_state_job.
    split; [exact Hfiles|]. right. by exists ls.
Qed.

(** ** Shape of the rows *)

Lemma csv_headers_names req :
  csv_headers req = (λ h, Cell (PStr h)) <$> column_names req.
Proof. done. Qed.

Lemma xlsx_record_columns req r :
  (xlsx_record req r).*1 = column_names req
  ∧ (xlsx_record req r).*2 = csv_data req r.
Proof.
  unfold xlsx_record, column_names, csv_data.
  destruct (req_include_metadata req); done.
Qed.

Lemma csv_data_length req r :
  length (csv_data req r) = length (column_names req).
Proof.
  unfold column_names, csv_data. by destruct (req_include_metadata req).
Qed.

(** X8: the file of a completed job has one record per matching row,
    all with the same columns: the nine core columns, followed by
    metadata, tags and hash exactly when [include_metadata] is set.  In
    CSV the first line is the header and every line has that many cells;
    in XLSX every record has these column names and the cells of the CSV
    line; in JSON every document has the corresponding keys. *)
Theorem completed_export_has_the_announced_columns w jid req j s s' :
  export_jobs s !! jid = Some j →
  process_export w jid req s = (inr tt, s') →
  (status <$> export_jobs s' !! jid) = Some "completed" →
  let rows := Sql.execute (table w) (build_query req) in
  let p := export_path w jid (req_format req) in
  (req_format req = "csv" →
     ∃ data,
       files s' !! p
         = Some (CsvFile (((λ h, Cell (PStr h)) <$> column_names req) :: data))
       ∧ length data = length rows
       ∧ Forall (λ line, length line = length (column_names req)) data)
  ∧ (req_format req = "xlsx" →
       ∃ sheet,
         files s' !! p = Some (XlsxFile sheet)
         ∧ Forall (λ record, record.*1 = column_names req) sheet
         ∧ (λ record, record.*2) <$> sheet = csv_data req <$> rows)
  ∧ (req_format req = "json" →
       ∃ doc docs,
         files s' !! p = Some (JsonFile doc)
         ∧ dict_get "documents" doc = Some (PList docs)
         ∧ length docs = length rows
         ∧ Forall (λ d, ∃ kv, d = PDict kv ∧ kv.*1 = json_keys req) docs).
Proof.
  intros Hj Hrun Hdone rows p.
  destruct (process_export_run w jid req j s Hj) as (r & s2 & Hio & Hrun').
  rewrite Hrun in Hrun'. injection Hrun' as ->.
  rewrite outcome_state_job in Hdone. rewrite outcome_state_files.
  destruct r as [e|rows']; [done|]. clear Hdone.
  apply produce_file_ok_inv in Hio as [-> Hw]. fold rows p in Hw.
  unfold write_by_format in Hw. split_and!; intros Hfmt;
    rewrite Hfmt in Hw; simpl in Hw.
  - apply write_csv_ok in Hw. rewrite Hw, lookup_insert_eq.
    eexists. split; [done|]. rewrite length_fmap. split; [done|].
    apply Forall_fmap, Forall_forall. intros row _. apply csv_data_length.
  - apply write_xlsx_ok in Hw. rewrite Hw, lookup_insert_eq.
    eexists. split; [done|]. split.
    + apply Forall_fmap, Forall_forall. intros row _.
      apply xlsx_record_columns.
    + rewrite <- list_fmap_compose. apply list_fmap_ext.
      intros i row _. apply xlsx_record_columns.
  - apply write_json_ok in Hw as [t Hw]. rewrite Hw, lookup_insert_eq.
    eexists _, _. split; [reflexivity|]. split; [reflexivity|].
    rewrite length_fmap. split; [done|].
    apply Forall_fmap, Forall_forall. intros row _. simpl.
    eexists. split; [reflexivity|]. unfold json_keys.
    by destruct (req_include_metadata req).
Qed.

(** ** Exports without metadata do not depend on the extra columns *)

Section merge_fmap.

Context {A : Type} (R : relation A) `{!RelDecision R} (f : A → A).
Context (HR : ∀ x y, R (f x) (f y) ↔ R x y).

Local Abbreviation stack_map st :=
  (fmap (M:=list) (fmap (M:=option) (fmap (M:=list) f)) st).

Lemma list_merge_fmap (l1 : list A) : ∀ l2 : list A,
  list_merge R (f <$> l1) (f <$> l2) = f <$> list_merge R l1 l2.
Proof.
  induction l1 as [|x1 l1 IH1]; intros l2; [by destruct l2|].
  induction l2 as [|x2 l2 IH2]; [done|].
  rewrite !fmap_cons, !list_merge_cons.
  destruct (decide (R (f x1) (f x2))) as [H1|H1],
    (decide (R x1 x2)) as [H2|H2].
  - rewrite fmap_cons. f_equal. by rewrite <- IH1.
  - exfalso. apply H2. by apply HR.
  - exfalso. apply H1. by apply HR.
  - rewrite fmap_cons. f_equal. by rewrite <- IH2.
Qed.

Lemma merge_list_to_stack_fmap (st : list (option (list A))) : ∀ l : list A,
  merge_list_to_stack R (stack_map st) (f <$> l)
    = stack_map (merge_list_to_stack R st l).
Proof.
  induction st as [|[l'|] st IH]; intros l; simpl; [done| |done].
  by rewrite list_merge_fmap, IH.
Qed.

Lemma merge_stack_fmap (st : list (option (list A))) :
  merge_stack R (stack_map st) = f <$> merge_stack R st.
Proof.
  induction st as [|[l'|] st IH]; [done| |done].
  change (list_merge R (f <$> l') (merge_stack R (stack_map st))
          = f <$> list_merge R l' (merge_stack R st)).
  by rewrite IH, list_merge_fmap.
Qed.

Lemma merge_sort_aux_fmap (l : list A) : ∀ st : list (option (list A)),
  merge_sort_aux R (stack_map st) (f <$> l)
    = f <$> merge_sort_aux R st l.
Proof.
  induction l as [|x l IH]; intros st; simpl.
  - apply merge_stack_fmap.
  - rewrite <- IH. f_equal.
    apply (merge_list_to_stack_fmap st [x]).
Qed.

Lemma merge_sort_fmap (l : list A) : merge_sort R (f <$> l) = f <$> merge_sort R l.
Proof. apply (merge_sort_aux_fmap l []). Qed.

End merge_fmap.

Lemma execute_strip_extra table parts :
  Sql.execute (strip_extra <$> table) parts
    = strip_extra <$> Sql.execute table parts.
Proof.
  unfold Sql.execute.
  assert (Hfilter :
    filter (λ r, forallb (λ p, Sql.holds p r) parts = true)
      (strip_extra <$> table)
    = strip_extra <$>
        filter (λ r, forallb (λ p, Sql.holds p r) parts = true) table).
  { induction table as [|r table IH]; [done|].
    rewrite fmap_cons.
    assert (Hsame : forallb (λ p, Sql.holds p (strip_extra r)) parts
                    = forallb (λ p, Sql.holds p r) parts).
    { clear IH. induction parts as [|p parts IHp]; [done|].
      simpl. rewrite IHp. by destruct p. }
    destruct (forallb (λ p, Sql.holds p r) parts) eqn:Hr.
    - rewrite !filter_cons_True by congruence. rewrite fmap_cons. by f_equal.
    - rewrite !filter_cons_False by congruence. done. }
  rewrite Hfilter. case_bool_decide; [|done].
  by apply merge_sort_fmap.
Qed.

Lemma for_each_fmap_ext {E A B} (f : A → B) (body1 : A → M E unit)
    (body2 : B → M E unit) (xs : list A) :
  (∀ x s, body2 (f x) s = body1 x s) →
  ∀ s, for_each (f <$> xs) body2 s = for_each xs body1 s.
Proof.
  intros Hbody. induction xs as [|x xs IH]; intros s; [done|].
  rewrite fmap_cons. simpl. rewrite !bind_run, Hbody.
  destruct (body1 x s) as [[e|[]] s1]; [done|]. apply IH.
Qed.

Section without_metadata.

Context (req : ExportRequest) (Hmeta : req_include_metadata req = false).

Lemma csv_data_strip_extra r : csv_data req (strip_extra r) = csv_data req r.
Proof. unfold csv_data. by rewrite Hmeta. Qed.

Lemma json_doc_strip_extra r : json_doc req (strip_extra r) = json_doc req r.
Proof. unfold json_doc. by rewrite Hmeta. Qed.

Lemma xlsx_record_strip_extra r :
  xlsx_record req (strip_extra r) = xlsx_record req r.
Proof. unfold xlsx_record. by rewrite Hmeta. Qed.

Lemma write_by_format_strip_extra w t p rows s :
  write_by_format (with_table w t) p req (strip_extra <$> rows) s
    = write_by_format w p req rows s.
Proof.
  unfold write_by_format. repeat case_decide; [| | |done].
  - unfold write_csv. rewrite !bind_run.
    change (open_w (with_table w t) p s) with (open_w w p s).
    destruct (open_w w p s) as [[e|[]] s1]; [done|]. rewrite !bind_run.
    change (writerow (with_table w t) p (csv_headers req) s1)
      with (writerow w p (csv_headers req) s1).
    destruct (writerow w p (csv_headers req) s1) as [[e|[]] s2]; [done|].
    apply for_each_fmap_ext. intros r s3. by rewrite csv_data_strip_extra.
  - unfold write_json. rewrite <- list_fmap_compose.
    rewrite (list_fmap_ext (json_doc req ∘ strip_extra) (json_doc req) rows)
      by (intros; apply json_doc_strip_extra).
    done.
  - unfold write_xlsx. rewrite <- list_fmap_compose.
    rewrite (list_fmap_ext (xlsx_record req ∘ strip_extra) (xlsx_record req)
               rows) by (intros; apply xlsx_record_strip_extra).
    done.
Qed.

Lemma run_export_strip_extra w jid s :
  run_export (with_table w (strip_extra <$> table w)) jid req s
    = run_export w jid req s.
Proof.
  unfold run_export, produce_file. rewrite !bind_run.
  unfold db_execute. simpl. destruct (db_fault w) as [e|]; [done|]. simpl.
  rewrite execute_strip_extra. rewrite !bind_run.
  unfold write_export_file. rewrite !bind_run.
  change (mkdir (with_table w _) _ s) with (mkdir w (export_dir (settings w)) s).
  destruct (mkdir w _ s) as [[e|[]] s1]; [done|].
  change (export_path (with_table w _) jid (req_format req))
    with (export_path w jid (req_format req)).
  rewrite write_by_format_strip_extra.
  destruct (write_by_format w _ req _ s1) as [[e|[]] s2]; [done|]. simpl.
  unfold mark_completed. by rewrite length_fmap.
Qed.

Lemma process_export_strip_extra w jid s :
  process_export (with_table w (strip_extra <$> table w)) jid req s
    = process_export w jid req s.
Proof.
  unfold process_export, try_except. rewrite !bind_run.
  destruct (mark_processing jid s) as [[e|[]] s1]; [done|].
  by rewrite run_export_strip_extra.
Qed.

End without_metadata.

(** X9: without [include_metadata], the task does not depend on what
    the columns metadata, tags and hash hold: over two tables that differ
    only there, it ends in the same state with the same files. *)
Theorem export_without_metadata_ignores_extra_columns w t1 t2 jid req s :
  req_include_metadata req = false →
  strip_extra <$> t1 = strip_extra <$> t2 →
  process_export (with_table w t1) jid req s
    = process_export (with_table w t2) jid req s.
Proof.
  intros Hmeta Hsame.
  rewrite <- (process_export_strip_extra req Hmeta (with_table w t1)).
  rewrite <- (process_export_strip_extra req Hmeta (with_table w t2)).
  simpl. unfold with_table at 1 3. simpl. by rewrite Hsame.
Qed.

(** ** Job ids *)

Lemma digits_length w : ∀ n, String.length (digits w n) = w.
Proof.
  induction w as [|w IH]; intros n; simpl; [done|].
  rewrite string_length_app, IH. simpl. lia.
Qed.

Lemma string_app_inj_length (a b c d : string) :
  String.length a = String.length b →
  a +:+ c = b +:+ d → a = b ∧ c = d.
Proof.
  revert b. induction a as [|x a IH]; intros [|y b]; simpl; try done.
  intros [= Hlen] [= -> Heq]. destruct (IH b Hlen Heq) as [-> ->]. done.
Qed.

Lemma digit_char_inj (a b : Z) :
  0 ≤ a < 10 → 0 ≤ b < 10 →
  Ascii.ascii_of_nat (48 + Z.to_nat a) = Ascii.ascii_of_nat (48 + Z.to_nat b) →
  a = b.
Proof.
  intros Ha Hb Heq. apply (f_equal Ascii.nat_of_ascii) in Heq.
  rewrite !Ascii.nat_ascii_embedding in Heq by lia. lia.
Qed.

Lemma digits_inj w : ∀ n m,
  0 ≤ n < 10 ^ Z.of_nat w → 0 ≤ m < 10 ^ Z.of_nat w →
  digits w n = digits w m → n = m.
Proof.
  induction w as [|w IH]; intros n m Hn Hm Heq.
  - simpl in Hn, Hm. lia.
  - rewrite Nat2Z.inj_succ, Z.pow_succ_r in Hn, Hm by lia.
    simpl in Heq.
    apply string_app_inj_length in Heq as [Hhi Hlo];
      [|by rewrite !digits_length].
    injection Hlo as Hlo.
    apply digit_char_inj in Hlo; [|apply Z.mod_pos_bound; lia..].
    apply IH in Hhi; [|split; [apply Z.div_pos; lia
                               |apply Z.div_lt_upper_bound; lia]..].
    rewrite (Z.div_mod n 10), (Z.div_mod m 10) by lia. lia.
Qed.

Lemma strftime_job_inj d1 d2 :
  valid_datetime d1 → valid_datetime d2 →
  strftime_job d1 = strftime_job d2 → d1 = d2.
Proof.
  intros (Hy1 & Hmo1 & Hd1 & Hh1 & Hmi1 & Hs1 & Hu1)
         (Hy2 & Hmo2 & Hd2 & Hh2 & Hmi2 & Hs2 & Hu2) Heq.
  destruct d1 as [y1 mo1 da1 h1 mi1 se1 u1],
           d2 as [y2 mo2 da2 h2 mi2 se2 u2].
  unfold strftime_job in Heq.
  cbn [year month day hour minute second microsecond] in *.
  apply string_app_inj_length in Heq as [Ey Heq]; [|by rewrite !digits_length].
  apply string_app_inj_length in Heq as [Emo Heq]; [|by rewrite !digits_length].
  apply string_app_inj_length in Heq as [Ed Heq]; [|by rewrite !digits_length].
  apply string_app_inj_length in Heq as [_ Heq]; [|done].
  apply string_app_inj_length in Heq as [Eh Heq]; [|by rewrite !digits_length].
  apply string_app_inj_length in Heq as [Emi Heq]; [|by rewrite !digits_length].
  apply string_app_inj_length in Heq as [Es Heq]; [|by rewrite !digits_length].
  apply string_app_inj_length in Heq as [_ Eu]; [|done].
  apply digits_inj in Ey, Emo, Ed, Eh, Emi, Es, Eu;
    try (change (10 ^ Z.of_nat 4) with 10000;
         change (10 ^ Z.of_nat 2) with 100;
         change (10 ^ Z.of_nat 6) with 1000000; lia).
  by subst.
Qed.

(** X10: the job id determines the timestamp it was built from: two
    datetimes with fields in range that give the same job id are equal. *)
Theorem job_id_determines_timestamp d1 d2 :
  valid_datetime d1 → valid_datetime d2 →
  "export_" +:+ strftime_job d1 = "export_" +:+ strftime_job d2 → d1 = d2.
Proof.
  intros Hv1 Hv2 Heq. apply strftime_job_inj; [done..|].
  by apply (inj (String.app "export_")) in Heq.
Qed.

(** X11: two submissions in a row whose job-id timestamps differ get
    different ids, and both jobs are stored afterwards. *)
Theorem submissions_at_distinct_times_coexist w1 w2 req1 req2 s :
  let t1 := utcnow w1 (ticks s) in
  let t2 := utcnow w2 (S (S (ticks s))) in
  valid_datetime t1 → valid_datetime t2 → t1 ≠ t2 →
  ∃ job1 s1 job2 s2,
    export_documents w1 req1 s = (inr job1, s1)
    ∧ export_documents w2 req2 s1 = (inr job2, s2)
    ∧ job_id job1 ≠ job_id job2
    ∧ export_jobs s2 !! job_id job1 = Some job1
    ∧ export_jobs s2 !! job_id job2 = Some job2.
Proof.
  intros t1 t2 Hv1 Hv2 Hne.
  eexists _, _, _, _. split; [apply export_documents_run|].
  split; [apply export_documents_run|]. simpl. fold t1 t2.
  assert (Hid : "export_" +:+ strftime_job t1 ≠ "export_" +:+ strftime_job t2).
  { intros Heq. apply Hne, strftime_job_inj; [done..|].
    by apply (inj (String.app "export_")) in Heq. }
  split; [done|]. split.
  - rewrite lookup_insert_ne by done. apply lookup_insert_eq.
  - apply lookup_insert_eq.
Qed.

(** X12: two submissions in a row whose job-id timestamps are equal get
    the same id: the second job replaces the first in [export_jobs], which
    gains one entry only, while both background tasks are queued for that
    id. *)
Theorem submissions_at_the_same_time_collide w1 w2 req1 req2 s :
  utcnow w1 (ticks s) = utcnow w2 (S (S (ticks s))) →
  ∃ job1 s1 job2 s2,
    export_documents w1 req1 s = (inr job1, s1)
    ∧ export_documents w2 req2 s1 = (inr job2, s2)
    ∧ job_id job1 = job_id job2
    ∧ export_jobs s2 !! job_id job1 = Some job2
    ∧ export_jobs s2 = <[job_id job1 := job2]> (export_jobs s)
    ∧ background_tasks s2
        = background_tasks s ++ [(job_id job1, req1); (job_id job1, req2)].
Proof.
  intros Hsame.
  eexists _, _, _, _. split; [apply export_documents_run|].
  split; [apply export_documents_run|]. simpl. rewrite <- Hsame.
  split; [done|]. split; [apply lookup_insert_eq|].
  split; [apply insert_insert_eq|]. by rewrite <- app_assoc.
Qed.

(** ** The formats announced *)

(** X13: each format announced by [get_export_formats] is one the other
    endpoints serve: its extension is the suffix of the export path, it has
    a media type of its own in [download_export], and the task writes a
    finished file for it. *)
Theorem announced_formats_are_the_formats_served f :
  f ∈ get_export_formats →
  fmt_extension f = "." +:+ fmt_id f
  ∧ (∃ m, media_types !! fmt_id f = Some m ∧ m ≠ "application/octet-stream")
  ∧ (∀ w jid,
       export_path w jid (fmt_id f)
         = path_join (export_dir (settings w)) (jid +:+ fmt_extension f))
  ∧ (∀ w p req rows s s',
       req_format req = fmt_id f →
       write_by_format w p req rows s = (inr tt, s') →
       ∃ c, files s' = <[p := c]> (files s) ∧ finished c).
Proof.
  intros Hf.
  assert (Hid : fmt_id f ∈ ["csv"; "json"; "xlsx"]
                ∧ fmt_extension f = "." +:+ fmt_id f).
  { unfold get_export_formats in Hf.
    rewrite !elem_of_cons, elem_of_nil in Hf.
    destruct Hf as [->|[->|[->|[]]]]; simpl;
      (split; [rewrite !elem_of_cons; tauto|done]). }
  destruct Hid as [Hid Hext]. split_and!.
  - done.
  - by apply media_type_of_supported.
  - intros w jid. unfold export_path. by rewrite Hext.
  - intros w p req rows s s' Hfmt. apply write_by_format_ok. by rewrite Hfmt.
Qed.

Lemma media_types_are_announced :
  dom media_types = list_to_set (fmt_id <$> get_export_formats).
Proof. by vm_compute. Qed.

(** ** The stored records *)

Lemma record_matches_key_step ev s s' :
  step ev s = Some s' →
  (∀ jid j, export_jobs s !! jid = Some j → record_matches_key jid j) →
  (∀ jid j, export_jobs s' !! jid = Some j → record_matches_key jid j).
Proof.
  intros Hstep Hall. destruct ev as [w req|w n|jid0|w jid0]; unfold step in Hstep.
  - apply (inj Some) in Hstep as <-.
    rewrite export_documents_run. simpl. intros jid j.
    destruct (decide (jid = next_job_id w s)) as [->|Hne].
    + rewrite lookup_insert_eq. by intros [= <-].
    + rewrite lookup_insert_ne by done. intros Hj. by apply Hall.
  - destruct (background_tasks s !! n) as [[jid0 req]|] eqn:Hn; [|done].
    apply (inj Some) in Hstep as <-. intros jid j.
    destruct (export_jobs s !! jid0) as [j0|] eqn:Hj0.
    + destruct (process_export_run w jid0 req j0
                  (set_background_tasks (delete n) s) Hj0)
        as (r & s2 & _ & ->).
      simpl. destruct (decide (jid = jid0)) as [->|Hne].
      * rewrite outcome_state_job. intros [= <-].
        destruct (Hall jid0 j0 Hj0) as [Hid Hurl].
        destruct r as [e|rows]; split; done.
      * destruct r as [e|rows]; simpl; rewrite lookup_insert_ne by done;
          intros Hj; by apply Hall.
    + rewrite process_export_key_error by done. simpl.
      intros Hj. by apply Hall.
  - apply (inj Some) in Hstep as <-. unfold get_export_job.
    destruct (export_jobs s !! jid0); simpl; intros jid j Hj; by apply Hall.
  - apply (inj Some) in Hstep as <-.
    destruct (download_export w jid0 s) as [r s1] eqn:Hrun.
    pose proof (download_export_job_side w jid0 _ _ _ Hrun) as Hside.
    unfold unchanged, job_side in Hside. injection Hside as Hjobs _ _.
    simpl. rewrite Hjobs. intros jid j Hj. by apply Hall.
Qed.

(** X14: in every state the service reaches from the empty job table, by
    whatever submissions (also those that get an id already stored), task
    runs, reads and downloads, the record stored under an id carries that
    id, and when it is completed its [download_url] is the route of
    [download_export] for that id under the prefix the router is mounted
    at. *)
Theorem stored_record_matches_its_key evs s :
  run evs initial_state = Some s →
  ∀ jid j, export_jobs s !! jid = Some j → record_matches_key jid j.
Proof.
  assert (Hgen : ∀ evs s0 s1, run evs s0 = Some s1 →
            (∀ jid j, export_jobs s0 !! jid = Some j → record_matches_key jid j) →
            ∀ jid j, export_jobs s1 !! jid = Some j → record_matches_key jid j).
  { clear. induction evs as [|ev evs IH]; intros s0 s1; simpl.
    - by intros [= <-].
    - destruct (step ev s0) as [s'|] eqn:Hstep; [|done]. simpl.
      intros Hrun Hall. eapply IH; [done|].
      by eapply record_matches_key_step. }
  intros Hrun. eapply Hgen; [done|]. intros jid j Hj. simpl in Hj.
  by rewrite lookup_empty in Hj.
Qed.

(** ** The properties above on concrete inputs *)

Lemma process_export_unknown_job_witness :
  process_export (quiet_world []) "export_0"
    (mk_request None None "csv" true None None) initial_state
  = (inl (key_error "export_0"), initial_state)
  ∧ ∀ w', (download_export w' "export_0" initial_state).1
          = inl (mk_http 404 "Export job not found").
Proof. by apply process_export_unknown_job. Defined.

Lemma process_export_frame_witness :
  let w := quiet_world [example_doc 1 7 5] in
  let req := mk_request (Some 7) None "json" true None None in
  let s1 := (export_documents w req initial_state).2 in
  let s2 := (export_documents w req s1).2 in
  ∃ s' j',
    process_export w "export_20240301_093000_000000" req s2 = (inr tt, s')
    ∧ export_jobs s' !! "export_20240301_093000_000000" = Some j'
    ∧ job_id j' = "export_20240301_093000_000000" ∧ format j' = "json"
    ∧ created_at j' = example_clock 1
    ∧ (∀ jid', jid' ≠ "export_20240301_093000_000000" →
         export_jobs s' !! jid' = export_jobs s2 !! jid')
    ∧ dom (export_jobs s') = dom (export_jobs s2)
    ∧ background_tasks s' = background_tasks s2.
Proof.
  intros w req s1 s2.
  apply (process_export_frame w "export_20240301_093000_000000" req
           (first_job "json") s2).
  by vm_compute.
Defined.

Lemma unsupported_format_completes_without_file_witness :
  let w := quiet_world [example_doc 1 7 5; example_doc 2 7 6] in
  let req := mk_request (Some 7) None "pdf" true None None in
  let jid := "export_20240301_093000_000000" in
  let s1 := (export_documents w req initial_state).2 in
  ∃ s' t,
    process_export w jid req s1 = (inr tt, s')
    ∧ export_jobs s' !! jid = Some (completed_job jid (first_job "pdf") t 2)
    ∧ files s' = files s1
    ∧ (path_exists s1 (export_path w jid "pdf") = false →
       (download_export w jid s').1
         = inl (mk_http 404 "Export file not found")).
Proof.
  intros w req jid s1.
  apply (unsupported_format_completes_without_file w jid req
           (first_job "pdf") s1);
    [by vm_compute|reflexivity| |reflexivity|reflexivity].
  rewrite !not_elem_of_cons. split_and!; try done. apply not_elem_of_nil.
Defined.

Lemma completed_job_can_be_downloaded_witness :
  let w := quiet_world [example_doc 1 7 5] in
  let req := mk_request (Some 7) None "xlsx" true None None in
  let jid := "export_20240301_093000_000000" in
  let s1 := (export_documents w req initial_state).2 in
  let s' := (process_export w jid req s1).2 in
  ∃ resp m,
    download_export w jid s' = (inr resp, set_ticks S s')
    ∧ resp_path resp = "./exports/export_20240301_093000_000000.xlsx"
    ∧ is_Some (files s' !! resp_path resp)
    ∧ media_types !! "xlsx" = Some m
    ∧ media_type resp = m
    ∧ m ≠ "application/octet-stream"
    ∧ resp_filename resp = "ediscovery_export_20240301.xlsx".
Proof.
  intros w req jid s1 s'.
  apply (completed_job_can_be_downloaded w w jid req (first_job "xlsx") s1 s');
    try (by vm_compute).
  rewrite !elem_of_cons. tauto.
Defined.

Lemma first_failure_is_recorded_witness :
  let w := no_directory_world in
  let req := mk_request None None "csv" true None None in
  let jid := "export_20240301_093000_000000" in
  let s1 := (export_documents w req initial_state).2 in
  ∃ s',
    process_export w jid req s1 = (inr tt, s')
    ∧ export_jobs s' !! jid
        = Some (failed_job (first_job "csv")
                  (mk_exn OSError "Permission denied"))
    ∧ files s' = files s1 ∧ dirs s' = dirs s1 ∧ writes s' = writes s1
    ∧ ticks s' = ticks s1.
Proof.
  intros w req jid s1.
  apply (first_failure_is_recorded w jid req (first_job "csv") s1).
  - by vm_compute.
  - right. by split.
Defined.

Lemma csv_export_leaves_a_prefix_witness :
  let w := disk_full_world [example_doc 1 7 5; example_doc 2 7 6] in
  let req := mk_request (Some 7) None "csv" false None None in
  let jid := "export_20240301_093000_000000" in
  let s1 := (export_documents w req initial_state).2 in
  ∃ s' c,
    process_export w jid req s1 = (inr tt, s')
    ∧ files s' = <[export_path w jid "csv" := c]> (files s1)
    ∧ ((c = CsvFile (csv_lines req (Sql.execute (table w) (build_query req)))
        ∧ (status <$> export_jobs s' !! jid) = Some "completed")
       ∨ (∃ ls,
            c = Truncated (CsvFile ls) ∧ ls ≠ []
            ∧ ls `prefix_of`
                csv_lines req (Sql.execute (table w) (build_query req))
            ∧ (status <$> export_jobs s' !! jid) = Some "failed")).
Proof.
  intros w req jid s1.
  apply (csv_export_leaves_a_prefix w jid req (first_job "csv") s1);
    by vm_compute.
Defined.

Lemma completed_export_has_the_announced_columns_witness :
  let w := quiet_world [example_doc 1 7 5; example_doc 2 7 6] in
  let req := mk_request (Some 7) None "csv" true None None in
  let jid := "export_20240301_093000_000000" in
  let s1 := (export_documents w req initial_state).2 in
  let s' := (process_export w jid req s1).2 in
  ∃ data,
    files s' !! export_path w jid "csv"
      = Some (CsvFile (((λ h, Cell (PStr h)) <$> column_names req) :: data))
    ∧ length data = 2%nat
    ∧ Forall (λ line, length line = 12%nat) data.
Proof.
  intros w req jid s1 s'.
  refine (proj1 (completed_export_has_the_announced_columns w jid req
                   (first_job "csv") s1 s' _ _ _) eq_refl);
    by vm_compute.
Defined.

Lemma export_without_metadata_ignores_extra_columns_witness :
  let req := mk_request None None "json" false None None in
  let r := example_doc 1 7 5 in
  let r' :=
    mk_row 1 "memo.txt" (Some 7) (Some "Acme v. Doe") (Some "2024-001")
      (Some "txt") (Some 120) (Some (mk_datetime 2024 1 5 0 0 0 0))
      (Some "alice") (PDict [("custodian", PStr "bob")]) PNone None in
  let s1 := (export_documents (quiet_world []) req initial_state).2 in
  process_export (with_table (quiet_world []) [r])
    "export_20240301_093000_000000" req s1
  = process_export (with_table (quiet_world []) [r'])
      "export_20240301_093000_000000" req s1.
Proof.
  intros req r r' s1.
  by apply export_without_metadata_ignores_extra_columns.
Defined.

Lemma job_id_determines_timestamp_witness :
  "export_" +:+ strftime_job (example_clock 7)
    = "export_" +:+ strftime_job (mk_datetime 2024 3 1 9 30 0 7)
  ∧ example_clock 7 = mk_datetime 2024 3 1 9 30 0 7.
Proof.
  split; [reflexivity|].
  apply job_id_determines_timestamp; [| |reflexivity];
    unfold valid_datetime; simpl; lia.
Defined.

Lemma submissions_at_distinct_times_coexist_witness :
  let w := quiet_world [] in
  let req1 := mk_request (Some 7) None "csv" true None None in
  let req2 := mk_request None None "json" false None None in
  ∃ job1 s1 job2 s2,
    export_documents w req1 initial_state = (inr job1, s1)
    ∧ export_documents w req2 s1 = (inr job2, s2)
    ∧ job_id job1 ≠ job_id job2
    ∧ export_jobs s2 !! job_id job1 = Some job1
    ∧ export_jobs s2 !! job_id job2 = Some job2.
Proof.
  intros w req1 req2.
  apply (submissions_at_distinct_times_coexist w w req1 req2 initial_state);
    [unfold valid_datetime; simpl; lia..|done].
Defined.

Lemma submissions_at_the_same_time_collide_witness :
  let w := frozen_clock_world in
  let req1 := mk_request (Some 7) None "csv" true None None in
  let req2 := mk_request None None "json" false None None in
  ∃ job1 s1 job2 s2,
    export_documents w req1 initial_state = (inr job1, s1)
    ∧ export_documents w req2 s1 = (inr job2, s2)
    ∧ job_id job1 = job_id job2
    ∧ export_jobs s2 !! job_id job1 = Some job2
    ∧ export_jobs s2 = <[job_id job1 := job2]> (export_jobs initial_state)
    ∧ background_tasks s2
        = background_tasks initial_state
            ++ [(job_id job1, req1); (job_id job1, req2)].
Proof.
  intros w req1 req2.
  by apply (submissions_at_the_same_time_collide w w req1 req2 initial_state).
Defined.

Lemma announced_formats_are_the_formats_served_witness :
  let f := mk_format "json" "JSON" ".json"
             "Structured data format, ideal for API integration" in
  fmt_extension f = "." +:+ fmt_id f
  ∧ (∃ m, media_types !! fmt_id f = Some m ∧ m ≠ "application/octet-stream").
Proof.
  intros f.
  destruct (announced_formats_are_the_formats_served f) as (H1 & H2 & _).
  - unfold get_export_formats. rewrite !elem_of_cons. right; left. done.
  - by split.
Defined.

Lemma stored_record_matches_its_key_witness :
  let w := quiet_world [example_doc 1 7 5] in
  let evs :=
    [ Submit w (mk_request (Some 7) None "csv" true None None);
      Submit w (mk_request None None "pdf" true None None);
      RunTask w 1; RunTask w 0 ] in
  let s := default initial_state (run evs initial_state) in
  let jid := "export_20240301_093000_000000" in
  ∃ j, export_jobs s !! jid = Some j
       ∧ status j = "completed"
       ∧ record_matches_key jid j.
Proof.
  intros w evs s jid.
  destruct (export_jobs s !! jid) as [j|] eqn:Hj; [|by vm_compute in Hj].
  exists j. split; [reflexivity|]. split.
  - vm_compute in Hj. by injection Hj as <-.
  - apply (stored_record_matches_its_key evs s); [by vm_compute|exact Hj].
Defined.

(** * The audit log endpoint *)

Example str_replace_example :
  str_replace "ab" "X" "abcabab-a" = "XcXX-a"
  ∧ str_replace "aa" "b" "aaa" = "ba"
  ∧ str_replace "SELECT a, b" "SELECT COUNT(*)" "SELECT a, b FROM t"
    = "SELECT COUNT(*) FROM t".
Proof. by vm_compute. Qed.

Section audit_query.

Import AuditLog.

Lemma build_query_split q :
  build_query q
    = (SelectLogs :: filters_of q ++ [OrderByTimestampDesc])
        ++ [LimitOffset (q_limit q) (q_offset q)].
Proof.
  unfold build_query, filters_of. simpl. f_equal.
  rewrite <- !app_assoc. done.
Qed.

Lemma but_last_snoc {A} (l : list A) x : but_last (l ++ [x]) = l.
Proof.
  unfold but_last. rewrite length_app. simpl.
  replace (length l + 1 - 1)%nat with (length l) by lia.
  by rewrite take_app_length.
Qed.

Lemma but_last_build_query q :
  but_last (build_query q)
    = SelectLogs :: filters_of q ++ [OrderByTimestampDesc].
Proof. by rewrite build_query_split, but_last_snoc. Qed.

Lemma when_truthy_cases {A B} `{Truthy (option A)} (x : option A) (f : A → B) :
  when_truthy x f = [] ∨ ∃ a, when_truthy x f = [f a].
Proof.
  unfold when_truthy. destruct (truthy x), x; eauto.
Qed.

Lemma elem_of_when_truthy {A B} `{Truthy (option A)} (x : option A)
    (f : A → B) p :
  p ∈ when_truthy x f ↔ ∃ a, x = Some a ∧ truthy x = true ∧ p = f a.
Proof.
  unfold when_truthy. destruct (truthy x) eqn:Ht, x as [a|]; simpl.
  - rewrite list_elem_of_singleton. split; [intros ->; eauto|].
    by intros (a' & [= ->] & _ & ->).
  - rewrite elem_of_nil. split; [done|]. by intros (a' & [=] & _).
  - rewrite elem_of_nil. split; [done|]. by intros (a' & _ & [=] & _).
  - rewrite elem_of_nil. split; [done|]. by intros (a' & [=] & _).
Qed.

Lemma truthy_int (v : Z) : truthy (Some v) = true ↔ v ≠ 0.
Proof.
  unfold truthy, opt_int_truthy. rewrite negb_true_iff, Z.eqb_neq. done.
Qed.

Lemma truthy_str (v : string) : truthy (Some v) = true ↔ v ≠ "".
Proof.
  unfold truthy, opt_str_truthy. rewrite negb_true_iff.
  split.
  - intros Hneq ->. by rewrite String.eqb_refl in Hneq.
  - intros Hne. apply String.eqb_neq. done.
Qed.

(** The text built for the count holds nothing for [replace] to find: the
    statement sent is the select itself, without its LIMIT. *)
Lemma count_statement_is_the_select q :
  count_statement (build_query q) = Select (but_last (build_query q)).
Proof.
  unfold count_statement. rewrite but_last_build_query. unfold filters_of.
  destruct (when_truthy_cases (q_user_id q) AndUserId) as [->|[? ->]],
    (when_truthy_cases (q_action q) AndAction) as [->|[? ->]],
    (when_truthy_cases (q_resource_type q) AndResourceType) as [->|[? ->]],
    (when_truthy_cases (q_resource_id q) AndResourceId) as [->|[? ->]],
    (when_truthy_cases (q_status q) AndStatus) as [->|[? ->]],
    (when_truthy_cases (q_date_from q) AndTimestampGe) as [->|[? ->]],
    (when_truthy_cases (q_date_to q) AndTimestampLe) as [->|[? ->]];
    vm_compute; reflexivity.
Qed.

End audit_query.

Section audit_logs.

Import AuditLog.

#[local] Instance newest_first_total : Total newest_first.
Proof. intros r1 r2. unfold newest_first. lia. Qed.

#[local] Instance newest_first_trans : Transitive newest_first.
Proof. intros r1 r2 r3. unfold newest_first. lia. Qed.

Lemma elem_of_filters_of q p :
  p ∈ filters_of q ↔
    (∃ v, q_user_id q = Some v ∧ v ≠ 0 ∧ p = AndUserId v)
    ∨ (∃ v, q_action q = Some v ∧ v ≠ "" ∧ p = AndAction v)
    ∨ (∃ v, q_resource_type q = Some v ∧ v ≠ "" ∧ p = AndResourceType v)
    ∨ (∃ v, q_resource_id q = Some v ∧ v ≠ 0 ∧ p = AndResourceId v)
    ∨ (∃ v, q_status q = Some v ∧ v ≠ "" ∧ p = AndStatus v)
    ∨ (∃ v, q_date_from q = Some v ∧ p = AndTimestampGe v)
    ∨ (∃ v, q_date_to q = Some v ∧ p = AndTimestampLe v).
Proof.
  unfold filters_of. rewrite !elem_of_app, !elem_of_when_truthy.
  repeat apply Morphisms_Prop.or_iff_morphism.
  - split; intros (v & Hv & Ht & ->); exists v; rewrite Hv in *;
      (split_and!; [done| |done]); by apply truthy_int.
  - split; intros (v & Hv & Ht & ->); exists v; rewrite Hv in *;
      (split_and!; [done| |done]); by apply truthy_str.
  - split; intros (v & Hv & Ht & ->); exists v; rewrite Hv in *;
      (split_and!; [done| |done]); by apply truthy_str.
  - split; intros (v & Hv & Ht & ->); exists v; rewrite Hv in *;
      (split_and!; [done| |done]); by apply truthy_int.
  - split; intros (v & Hv & Ht & ->); exists v; rewrite Hv in *;
      (split_and!; [done| |done]); by apply truthy_str.
  - split; [intros (v & Hv & _ & ->); eauto|].
    intros (v & Hv & ->). exists v. by rewrite Hv.
  - split; [intros (v & Hv & _ & ->); eauto|].
    intros (v & Hv & ->). exists v. by rewrite Hv.
Qed.

Lemma holds_filters_of q r :
  (∀ p, p ∈ filters_of q → holds p r = true) ↔ selects q r.
Proof.
  unfold selects. split.
  - intros Hall. split_and!; intros v Hv; intros.
    + assert (Hh : holds (AndUserId v) r = true).
      { apply Hall, elem_of_filters_of. left. eauto. }
      by apply Z.eqb_eq in Hh.
    + assert (Hh : holds (AndAction v) r = true).
      { apply Hall, elem_of_filters_of. right; left. eauto. }
      by apply bool_decide_eq_true in Hh.
    + assert (Hh : holds (AndResourceType v) r = true).
      { apply Hall, elem_of_filters_of. do 2 right; left. eauto. }
      by apply bool_decide_eq_true in Hh.
    + assert (Hh : holds (AndResourceId v) r = true).
      { apply Hall, elem_of_filters_of. do 3 right; left. eauto. }
      by apply bool_decide_eq_true in Hh.
    + assert (Hh : holds (AndStatus v) r = true).
      { apply Hall, elem_of_filters_of. do 4 right; left. eauto. }
      by apply bool_decide_eq_true in Hh.
    + assert (Hh : holds (AndTimestampGe v) r = true).
      { apply Hall, elem_of_filters_of. do 5 right; left. eauto. }
      by apply Z.leb_le in Hh.
    + assert (Hh : holds (AndTimestampLe v) r = true).
      { apply Hall, elem_of_filters_of. do 6 right. eauto. }
      by apply Z.leb_le in Hh.
  - intros (H1 & H2 & H3 & H4 & H5 & H6 & H7) p.
    rewrite elem_of_filters_of.
    intros [(v & Hv & Hne & ->)|[(v & Hv & Hne & ->)|[(v & Hv & Hne & ->)|
             [(v & Hv & Hne & ->)|[(v & Hv & Hne & ->)|
             [(v & Hv & ->)|(v & Hv & ->)]]]]]]; simpl.
    + apply Z.eqb_eq; eauto.
    + apply bool_decide_eq_true; eauto.
    + apply bool_decide_eq_true; eauto.
    + apply bool_decide_eq_true; eauto.
    + apply bool_decide_eq_true; eauto.
    + apply Z.leb_le; eauto.
    + apply Z.leb_le; eauto.
Qed.

Lemma window_without_limit parts rows :
  (∀ l o, LimitOffset l o ∉ parts) → window parts rows = rows.
Proof.
  unfold window. revert rows.
  induction parts as [|p parts IH]; intros rows Hno; [done|]. simpl.
  rewrite IH.
  - destruct p; try done. exfalso. eapply Hno. by left.
  - intros l o Hin. eapply Hno. by right.
Qed.

Lemma window_snoc pre limit offset rows :
  window (pre ++ [LimitOffset limit offset]) rows
    = take (Z.to_nat limit) (drop (Z.to_nat offset) (window pre rows)).
Proof. unfold window. by rewrite foldl_app. Qed.

Lemma execute_paginated table pre limit offset :
  (∀ l o, LimitOffset l o ∉ pre) →
  execute table (pre ++ [LimitOffset limit offset])
    = take (Z.to_nat limit) (drop (Z.to_nat offset) (execute table pre)).
Proof.
  intros Hno. unfold execute.
  rewrite (list_filter_iff
             (λ r, forallb (λ p, holds p r)
                     (pre ++ [LimitOffset limit offset]) = true)
             (λ r, forallb (λ p, holds p r) pre = true)).
  2: { intros r. rewrite forallb_app. simpl. by rewrite !andb_true_r. }
  rewrite (bool_decide_ext (OrderByTimestampDesc ∈ pre ++ _)
             (OrderByTimestampDesc ∈ pre)).
  2: { rewrite elem_of_app, list_elem_of_singleton.
       split; [by intros [?|?]|by left]. }
  by rewrite window_snoc.
Qed.

Lemma no_limit_before_the_last q :
  ∀ l o, LimitOffset l o ∉ but_last (build_query q).
Proof.
  intros l o. rewrite but_last_build_query.
  rewrite elem_of_cons, elem_of_app, elem_of_filters_of,
    list_elem_of_singleton.
  intros [?|[Hin|?]]; [done| |done].
  destruct Hin as [(?&?&?&?)|[(?&?&?&?)|[(?&?&?&?)|[(?&?&?&?)|[(?&?&?&?)|
                   [(?&?&?)|(?&?&?)]]]]]]; done.
Qed.

Lemma execute_build_query table q :
  execute table (build_query q)
    = take (Z.to_nat (q_limit q))
        (drop (Z.to_nat (q_offset q))
           (execute table (but_last (build_query q)))).
Proof.
  rewrite build_query_split at 1. rewrite <- but_last_build_query.
  apply execute_paginated, no_limit_before_the_last.
Qed.

Lemma matching_perm w q :
  matching w q
    ≡ₚ filter (λ r, forallb (λ p, holds p r) (but_last (build_query q)) = true)
         (log_table w).
Proof.
  unfold matching, execute.
  rewrite window_without_limit by apply no_limit_before_the_last.
  case_bool_decide; [apply merge_sort_Permutation|done].
Qed.

Lemma elem_of_matching w q r :
  r ∈ matching w q ↔ r ∈ log_table w ∧ selects q r.
Proof.
  rewrite matching_perm, list_elem_of_filter, forallb_forall.
  setoid_rewrite <- list_elem_of_In. rewrite <- holds_filters_of.
  rewrite but_last_build_query. split.
  - intros [Hall Hin]. split; [done|]. intros p Hp. apply Hall.
    rewrite elem_of_cons, elem_of_app. auto.
  - intros [Hin Hall]. split; [|done]. intros p.
    rewrite elem_of_cons, elem_of_app, list_elem_of_singleton.
    intros [->|[Hp| ->]]; [done|by apply Hall|done].
Qed.

Lemma matching_sorted w q : StronglySorted newest_first (matching w q).
Proof.
  unfold matching, execute.
  rewrite window_without_limit by apply no_limit_before_the_last.
  rewrite bool_decide_eq_true_2.
  - apply StronglySorted_merge_sort; apply _.
  - rewrite but_last_build_query, elem_of_cons, elem_of_app,
      list_elem_of_singleton. auto.
Qed.

Lemma execute_page w q :
  execute (log_table w) (build_query q) = page_rows w q.
Proof. apply execute_build_query. Qed.

Lemma elem_of_page_rows w q r :
  r ∈ page_rows w q → r ∈ log_table w ∧ selects q r.
Proof.
  unfold page_rows. intros Hr. apply subseteq_take, subseteq_drop in Hr.
  by apply elem_of_matching.
Qed.

(** ** Validation of the rows *)

Lemma entries_of_rows_ok w rows :
  forallb validates rows = true →
  entries_of_rows w rows = inr (entry_args <$> rows).
Proof.
  induction rows as [|r rows IH]; simpl; [done|].
  intros [Hr Hrows]%andb_true_iff. unfold entry_of_row.
  by rewrite Hr, IH.
Qed.

Lemma entries_of_rows_inr w rows : ∀ es,
  entries_of_rows w rows = inr es →
  es = entry_args <$> rows ∧ forallb validates rows = true.
Proof.
  induction rows as [|r rows IH]; intros es; simpl.
  - by intros [= <-].
  - unfold entry_of_row. destruct (validates r) eqn:Hr; [|done].
    destruct (entries_of_rows w rows) as [e|es'] eqn:Hrec; [done|].
    intros [= <-]. by destruct (IH es' eq_refl) as [-> ->].
Qed.

Lemma entries_of_rows_inl w rows e :
  entries_of_rows w rows = inl e ↔
    ∃ pre r post,
      rows = pre ++ r :: post
      ∧ forallb validates pre = true
      ∧ validates r = false
      ∧ e = mk_exn ValidationError (details_error w (details (entry_args r))).
Proof.
  split.
  - induction rows as [|r rows IH]; simpl; [done|].
    unfold entry_of_row. destruct (validates r) eqn:Hr.
    + destruct (entries_of_rows w rows) as [e'|es] eqn:Hrec; [|done].
      intros [= <-].
      destruct (IH eq_refl) as (pre & r' & post & -> & Hpre & Hr' & He).
      exists (r :: pre), r', post. simpl. by rewrite Hr, Hpre.
    + intros [= <-]. by exists [], r, rows.
  - intros (pre & r & post & -> & Hpre & Hr & ->).
    induction pre as [|r0 pre IH]; simpl; unfold entry_of_row.
    + by rewrite Hr.
    + simpl in Hpre. apply andb_true_iff in Hpre as [Hr0 Hpre].
      rewrite Hr0. by rewrite (IH Hpre).
Qed.

(** What [get_audit_logs] answers when the database answers and the rows
    of the page pass the validation. *)
Lemma get_audit_logs_ok w q :
  q_limit q ≠ 0 → logs_fault w = None → count_fault w = None →
  forallb validates (page_rows w q) = true →
  get_audit_logs w q
    = inr (mk_logs_response
             (default 0 (al_id <$> head (matching w q)))
             (entry_args <$> page_rows w q)
             (q_offset q / q_limit q + 1)
             (q_limit q)
             (build_filters_applied q)).
Proof.
  intros Hlimit Hlogs Hcount Hvalid. unfold get_audit_logs, fetchall, scalar.
  rewrite Hlogs, Hcount, count_statement_is_the_select, execute_page.
  rewrite (entries_of_rows_ok _ _ Hvalid).
  rewrite decide_False by done.
  fold (matching w q). f_equal. f_equal.
  destruct (head (matching w q)) as [r|]; simpl; [|done].
  unfold truthy, opt_int_truthy. destruct (Z.eqb_spec (al_id r) 0); simpl; done.
Qed.

(** What an answer of [get_audit_logs] tells. *)
Lemma get_audit_logs_inr w q resp :
  get_audit_logs w q = inr resp →
  logs resp = entry_args <$> page_rows w q
  ∧ forallb validates (page_rows w q) = true
  ∧ filters_applied resp = build_filters_applied q.
Proof.
  unfold get_audit_logs, fetchall, scalar.
  destruct (logs_fault w); [done|]. destruct (count_fault w); [done|].
  rewrite count_statement_is_the_select, execute_page.
  destruct (entries_of_rows w (page_rows w q)) as [e|es] eqn:Hes; [done|].
  apply entries_of_rows_inr in Hes as [-> Hvalid].
  case_decide; [done|]. by intros [= <-].
Qed.

End audit_logs.

Section audit_properties.

Import AuditLog.

Example get_audit_logs_example :
  get_audit_logs (audit_world example_logs)
    (mk_logs_query None (Some "upload") None (Some 0) None None None 1 0)
  = inr (mk_logs_response 30
           [ mk_entry 30 (mk_datetime 2024 1 3 8 0 0 0) 2 "Unknown" "upload"
               "unknown" (Some 5) (PDict [("size", PInt 3)]) None None
               "unknown" ]
           1 1 [("action", PStr "upload")]).
Proof. by vm_compute. Qed.

Example get_audit_logs_count_fault_example :
  get_audit_logs (count_down_world example_logs)
    (mk_logs_query None None None None None None None 50 0)
  = inl (mk_http 500 "Audit log retrieval failed: connection lost").
Proof. by vm_compute. Qed.

Example get_audit_logs_invalid_details_example :
  get_audit_logs (audit_world (note_log :: example_logs))
    (mk_logs_query None None None None None None None 50 0)
  = inl (mk_http 500
           "Audit log retrieval failed: 1 validation error for AuditLogEntry").
Proof. by vm_compute. Qed.

(** X15: the text searched for by the [replace] of the count query does
    not occur in the statement, so the count query is the select itself
    without its LIMIT: when the database answers and the rows of the page
    pass the validation of the model, [total_records] is the id of the
    newest matching log entry (0 when none matches), not the number of
    matching entries. *)
Theorem audit_total_records_is_the_newest_id w q :
  valid_query q → logs_fault w = None → count_fault w = None →
  forallb validates (page_rows w q) = true →
  ∃ resp,
    get_audit_logs w q = inr resp
    ∧ total_records resp = default 0 (al_id <$> head (matching w q))
    ∧ (∀ r, r ∈ matching w q ↔ r ∈ log_table w ∧ selects q r)
    ∧ StronglySorted newest_first (matching w q).
Proof.
  intros [Hlimit _] Hlogs Hcount Hvalid. eexists.
  split; [apply get_audit_logs_ok; [lia|done..]|]. simpl.
  split; [done|]. split; [apply elem_of_matching|apply matching_sorted].
Qed.

(** X16: when the database answers and the rows of the page pass the
    validation of the model, [logs] is the window of at most [limit]
    entries, starting after [offset], of the matching entries newest
    first; every entry comes from a row that satisfies the criteria,
    [per_page] is the limit and [page] is the 1-based number of the page
    the offset falls in. *)
Theorem audit_logs_are_one_page_of_the_matches w q :
  valid_query q → logs_fault w = None → count_fault w = None →
  forallb validates (page_rows w q) = true →
  ∃ resp,
    get_audit_logs w q = inr resp
    ∧ logs resp
        = entry_args <$>
            take (Z.to_nat (q_limit q))
              (drop (Z.to_nat (q_offset q)) (matching w q))
    ∧ Z.of_nat (length (logs resp)) ≤ q_limit q
    ∧ (∀ e, e ∈ logs resp →
         ∃ r, r ∈ log_table w ∧ selects q r ∧ entry_of_row w r = inr e)
    ∧ per_page resp = q_limit q
    ∧ 1 ≤ page resp
    ∧ (page resp - 1) * q_limit q ≤ q_offset q < page resp * q_limit q.
Proof.
  intros [Hlimit Hoffset] Hlogs Hcount Hvalid. eexists.
  split; [apply get_audit_logs_ok; [lia|done..]|]. simpl.
  split; [done|]. split_and!.
  - unfold page_rows. rewrite length_fmap, length_take. lia.
  - intros e (r & -> & Hr)%list_elem_of_fmap. exists r.
    destruct (elem_of_page_rows _ _ _ Hr) as [Hin Hsel].
    split; [done|]. split; [done|]. unfold entry_of_row.
    rewrite forallb_forall in Hvalid.
    by rewrite (Hvalid r) by by apply list_elem_of_In.
  - done.
  - pose proof (Z.div_pos (q_offset q) (q_limit q)). lia.
  - replace (q_offset q / q_limit q + 1 - 1) with (q_offset q / q_limit q)
      by lia.
    rewrite Z.mul_comm. apply Z.mul_div_le. lia.
  - rewrite Z.mul_comm.
    replace (q_offset q / q_limit q + 1) with (Z.succ (q_offset q / q_limit q))
      by lia.
    apply Z.mul_succ_div_gt. lia.
Qed.

(** X17: [filters_applied] has a key for exactly the criteria that were
    given and truthy: a user or resource id of 0 and an empty action,
    resource type or status are not listed; a date is listed whenever
    given. *)
Theorem audit_filters_applied_lists_the_truthy_criteria w q resp k :
  get_audit_logs w q = inr resp →
  k ∈ (filters_applied resp).*1 ↔
    (k = "user_id" ∧ ∃ v, q_user_id q = Some v ∧ v ≠ 0)
    ∨ (k = "action" ∧ ∃ v, q_action q = Some v ∧ v ≠ "")
    ∨ (k = "resource_type" ∧ ∃ v, q_resource_type q = Some v ∧ v ≠ "")
    ∨ (k = "resource_id" ∧ ∃ v, q_resource_id q = Some v ∧ v ≠ 0)
    ∨ (k = "status" ∧ ∃ v, q_status q = Some v ∧ v ≠ "")
    ∨ (k = "date_from" ∧ is_Some (q_date_from q))
    ∨ (k = "date_to" ∧ is_Some (q_date_to q)).
Proof.
  intros Hresp.
  destruct (get_audit_logs_inr _ _ _ Hresp) as (_ & _ & ->).
  unfold build_filters_applied. rewrite !fmap_app, !elem_of_app.
  rewrite !list_elem_of_fmap. setoid_rewrite elem_of_when_truthy.
  repeat apply Morphisms_Prop.or_iff_morphism.
  - split.
    + intros (x & -> & v & Hv & Ht & ->). split; [done|]. exists v.
      rewrite Hv in Ht. split; [done|]. by apply truthy_int.
    + intros (-> & v & Hv & Hne). eexists. split; [|exists v; split_and!; try done].
      * done.
      * rewrite Hv. by apply truthy_int.
  - split.
    + intros (x & -> & v & Hv & Ht & ->). split; [done|]. exists v.
      rewrite Hv in Ht. split; [done|]. by apply truthy_str.
    + intros (-> & v & Hv & Hne). eexists. split; [|exists v; split_and!; try done].
      * done.
      * rewrite Hv. by apply truthy_str.
  - split.
    + intros (x & -> & v & Hv & Ht & ->). split; [done|]. exists v.
      rewrite Hv in Ht. split; [done|]. by apply truthy_str.
    + intros (-> & v & Hv & Hne). eexists. split; [|exists v; split_and!; try done].
      * done.
      * rewrite Hv. by apply truthy_str.
  - split.
    + intros (x & -> & v & Hv & Ht & ->). split; [done|]. exists v.
      rewrite Hv in Ht. split; [done|]. by apply truthy_int.
    + intros (-> & v & Hv & Hne). eexists. split; [|exists v; split_and!; try done].
      * done.
      * rewrite Hv. by apply truthy_int.
  - split.
    + intros (x & -> & v & Hv & Ht & ->). split; [done|]. exists v.
      rewrite Hv in Ht. split; [done|]. by apply truthy_str.
    + intros (-> & v & Hv & Hne). eexists. split; [|exists v; split_and!; try done].
      * done.
      * rewrite Hv. by apply truthy_str.
  - split.
    + intros (x & -> & v & Hv & Ht & ->). split; [done|]. by exists v.
    + intros (-> & v & Hv). eexists. split; [|exists v; split_and!; try done].
      * done.
      * by rewrite Hv.
  - split.
    + intros (x & -> & v & Hv & Ht & ->). split; [done|]. by exists v.
    + intros (-> & v & Hv). eexists. split; [|exists v; split_and!; try done].
      * done.
      * by rewrite Hv.
Qed.

Lemma str_or_not_empty s d : d ≠ "" → str_or s d ≠ "".
Proof.
  intros Hd. unfold str_or. destruct (truthy s) eqn:Ht; [|done].
  destruct s as [v|]; [|done]. simpl. by apply truthy_str.
Qed.

(** X18: in an answered entry the user name, the resource type and the
    status are never empty and the details are never None: a NULL or empty
    column is replaced by its default; every entry comes from a row of the
    log table. *)
Theorem audit_entries_have_no_empty_field w q resp e :
  get_audit_logs w q = inr resp →
  e ∈ logs resp →
  username e ≠ "" ∧ resource_type e ≠ "" ∧ status e ≠ ""
  ∧ details e ≠ PNone
  ∧ (∃ r, r ∈ log_table w ∧ entry_of_row w r = inr e).
Proof.
  intros Hresp He.
  destruct (get_audit_logs_inr _ _ _ Hresp) as (Hl & Hvalid & _).
  rewrite Hl in He. apply list_elem_of_fmap in He as (r & -> & Hr).
  split_and!; simpl; try (by apply str_or_not_empty).
  - destruct (truthy (al_details r)) eqn:Ht; [|done].
    intros Heq. by rewrite Heq in Ht.
  - exists r. split; [by apply (elem_of_page_rows w q)|].
    unfold entry_of_row. rewrite forallb_forall in Hvalid.
    by rewrite (Hvalid r) by by apply list_elem_of_In.
Qed.

(** X19: for parameters in the range the route accepts, the endpoint
    fails in three cases only, and always with status 500 and the text of
    the exception after [Audit log retrieval failed: ]: the select fails in
    the database; or the count does; or both answer and a row of the page
    holds a [details] that is truthy and no dict, which the model refuses -
    the exception is then that of the first such row. *)
Theorem audit_fails_on_database_or_validation_error w q err :
  valid_query q →
  get_audit_logs w q = inl err ↔
    ∃ e,
      err = mk_http 500 ("Audit log retrieval failed: " +:+ str_exn e)
      ∧ (logs_fault w = Some e
         ∨ (logs_fault w = None ∧ count_fault w = Some e)
         ∨ (logs_fault w = None ∧ count_fault w = None
            ∧ ∃ pre r post,
                page_rows w q = pre ++ r :: post
                ∧ forallb validates pre = true
                ∧ validates r = false
                ∧ e = mk_exn ValidationError
                        (details_error w (details (entry_args r))))).
Proof.
  intros [Hlimit _]. unfold get_audit_logs, fetchall, scalar.
  rewrite count_statement_is_the_select.
  destruct (logs_fault w) as [e1|]; [|destruct (count_fault w) as [e2|]].
  - split.
    + intros [= <-]. exists e1. split; [done|by left].
    + by intros (e & -> & [[= ->]|[[[=] _]|([=] & _)]]).
  - split.
    + intros [= <-]. exists e2. split; [done|]. right; left. done.
    + by intros (e & -> & [[=]|[[_ [= ->]]|(_ & [=] & _)]]).
  - rewrite execute_page.
    destruct (entries_of_rows w (page_rows w q)) as [e|es] eqn:Hes.
    + split.
      * intros [= <-]. exists e. split; [done|]. right; right.
        split; [done|]. split; [done|]. by apply entries_of_rows_inl.
      * intros (e' & -> & [[=]|[[_ [=]]|(_ & _ & Hex)]]).
        apply entries_of_rows_inl in Hex. rewrite Hes in Hex.
        by injection Hex as ->.
    + rewrite decide_False by lia. split; [done|].
      intros (e' & _ & [[=]|[[_ [=]]|(_ & _ & Hex)]]).
      apply entries_of_rows_inl in Hex. by rewrite Hes in Hex.
Qed.

End audit_properties.

Section audit_witnesses.

Import AuditLog.

Lemma audit_total_records_is_the_newest_id_witness :
  let w := audit_world example_logs in
  let q := mk_logs_query None (Some "upload") None None None None None 1 0 in
  ∃ resp,
    get_audit_logs w q = inr resp
    ∧ total_records resp = default 0 (al_id <$> head (matching w q))
    ∧ (∀ r, r ∈ matching w q ↔ r ∈ log_table w ∧ selects q r)
    ∧ StronglySorted newest_first (matching w q).
Proof.
  intros w q. apply (audit_total_records_is_the_newest_id w q);
    [unfold valid_query; simpl; lia|reflexivity|reflexivity|by vm_compute].
Defined.

Lemma audit_logs_are_one_page_of_the_matches_witness :
  let w := audit_world example_logs in
  let q := mk_logs_query (Some 1) None None None None None None 1 1 in
  ∃ resp,
    get_audit_logs w q = inr resp
    ∧ logs resp
        = entry_args <$>
            take (Z.to_nat (q_limit q))
              (drop (Z.to_nat (q_offset q)) (matching w q))
    ∧ Z.of_nat (length (logs resp)) ≤ q_limit q
    ∧ (∀ e, e ∈ logs resp →
         ∃ r, r ∈ log_table w ∧ selects q r ∧ entry_of_row w r = inr e)
    ∧ per_page resp = q_limit q
    ∧ 1 ≤ page resp
    ∧ (page resp - 1) * q_limit q ≤ q_offset q < page resp * q_limit q.
Proof.
  intros w q. apply (audit_logs_are_one_page_of_the_matches w q);
    [unfold valid_query; simpl; lia|reflexivity|reflexivity|by vm_compute].
Defined.

Lemma audit_filters_applied_lists_the_truthy_criteria_witness :
  let w := audit_world example_logs in
  let q := mk_logs_query (Some 0) (Some "upload") None None (Some "") None
             None 50 0 in
  let resp :=
    mk_logs_response 30 (entry_args <$> matching w q) 1 50
      [("action", PStr "upload")] in
  "status" ∈ (filters_applied resp).*1 ↔
    ("status" = "user_id" ∧ ∃ v, q_user_id q = Some v ∧ v ≠ 0)
    ∨ ("status" = "action" ∧ ∃ v, q_action q = Some v ∧ v ≠ "")
    ∨ ("status" = "resource_type"
       ∧ ∃ v, q_resource_type q = Some v ∧ v ≠ "")
    ∨ ("status" = "resource_id" ∧ ∃ v, q_resource_id q = Some v ∧ v ≠ 0)
    ∨ ("status" = "status" ∧ ∃ v, q_status q = Some v ∧ v ≠ "")
    ∨ ("status" = "date_from" ∧ is_Some (q_date_from q))
    ∨ ("status" = "date_to" ∧ is_Some (q_date_to q)).
Proof.
  intros w q resp.
  apply (audit_filters_applied_lists_the_truthy_criteria w q resp "status").
  by vm_compute.
Defined.

Lemma audit_entries_have_no_empty_field_witness :
  let w := audit_world example_logs in
  let q := mk_logs_query None (Some "upload") None (Some 0) None None None
             1 0 in
  let e :=
    mk_entry 30 (mk_datetime 2024 1 3 8 0 0 0) 2 "Unknown" "upload"
      "unknown" (Some 5) (PDict [("size", PInt 3)]) None None "unknown" in
  username e ≠ "" ∧ resource_type e ≠ "" ∧ status e ≠ ""
  ∧ details e ≠ PNone
  ∧ (∃ r, r ∈ log_table w ∧ entry_of_row w r = inr e).
Proof.
  intros w q e.
  apply (audit_entries_have_no_empty_field w q
           (mk_logs_response 30 [e] 1 1 [("action", PStr "upload")]) e).
  - by vm_compute.
  - apply list_elem_of_singleton. reflexivity.
Defined.

Lemma audit_fails_on_database_or_validation_error_witness :
  let w := audit_world (note_log :: example_logs) in
  let q := mk_logs_query None None None None None None None 50 0 in
  let err :=
    mk_http 500
      "Audit log retrieval failed: 1 validation error for AuditLogEntry" in
  get_audit_logs w q = inl err ↔
    ∃ e,
      err = mk_http 500 ("Audit log retrieval failed: " +:+ str_exn e)
      ∧ (logs_fault w = Some e
         ∨ (logs_fault w = None ∧ count_fault w = Some e)
         ∨ (logs_fault w = None ∧ count_fault w = None
            ∧ ∃ pre r post,
                page_rows w q = pre ++ r :: post
                ∧ forallb validates pre = true
                ∧ validates r = false
                ∧ e = mk_exn ValidationError
                        (details_error w (details (entry_args r))))).
Proof.
  intros w q err.
  apply (audit_fails_on_database_or_validation_error w q err).
  unfold valid_query; simpl; lia.
Defined.

End audit_witnesses.
